(** * check_translation.py: path mapping, metadata cache and staleness checks

    A shallow embedding of [src/check_translation.py].  Python strings are
    [string], Python dicts are association lists in insertion order, the
    values read from the JSON cache file are a small [json] type, and the
    methods of [GithubAnalyzer] are state-passing functions over an
    [analyzer] record that return either a value or the exception raised.

    What is left to the outside is gathered in the [world] record: the
    clock, the GitHub client, the local file system, and the front matter
    block as regex and YAML parser deliver it.  Epoch seconds and dates are
    integers, one clock reading serves a whole call, local files that
    [os.walk] listed can be opened, and the log lines are not kept. *)

From Stdlib Require Import String Ascii List ZArith Bool Lia PeanoNat.
From Stdlib Require Import Permutation.
Import ListNotations.
Local Open Scope string_scope.
#[local] Set Warnings "-register-all".

(** ** Python string operations used by the script *)

Module PyStr.

(** [s[n:]] *)
Fixpoint drop (n : nat) (s : string) : string :=
  match n, s with
  | O, _ => s
  | S _, EmptyString => EmptyString
  | S k, String _ s' => drop k s'
  end.

(** [s.startswith(p)] *)
Definition startswith (s p : string) : bool := prefix p s.

(** [s.endswith(e)] *)
Definition endswith (s e : string) : bool :=
  (String.length e <=? String.length s)%nat &&
  String.eqb (drop (String.length s - String.length e) s) e.

(** [pat in s] for strings: [pat] occurs somewhere in [s]. *)
Fixpoint occurs (pat s : string) : bool :=
  prefix pat s ||
  match s with
  | EmptyString => false
  | String _ s' => occurs pat s'
  end.

(** [s.replace(old, new)] for a non-empty [old] (both call sites pass a
    literal): scan from the left, replace the leftmost occurrence, resume
    after it.  [skip] counts the characters of a matched [old] still to be
    consumed. *)
Fixpoint replace_from (skip : nat) (old new s : string) : string :=
  match s with
  | EmptyString => EmptyString
  | String c s' =>
      match skip with
      | S k => replace_from k old new s'
      | O =>
          if prefix old s
          then new ++ replace_from (String.length old - 1) old new s'
          else String c (replace_from 0 old new s')
      end
  end.

Definition replace (s old new : string) : string := replace_from 0 old new s.

(** [any(s.endswith(ext) for ext in exts)] *)
Definition endswith_any (s : string) (exts : list string) : bool :=
  existsb (endswith s) exts.

(** [os.path.join(a, b)] on POSIX. *)
Definition path_join (a b : string) : string :=
  if startswith b "/" then b
  else if (String.eqb a "" || endswith a "/") then a ++ b
  else a ++ "/" ++ b.

End PyStr.

(** ** Path mapper *)

Definition local_prefix : string := "sources/syzkaller/".
Definition upstream_prefix : string := "docs/".

Definition map_file_path (file_path : string) (is_local2upstream : bool) : string :=
  if is_local2upstream then
    let mapped_file_path := PyStr.replace file_path local_prefix upstream_prefix in
    if PyStr.startswith mapped_file_path "./"
    then PyStr.drop 2 mapped_file_path
    else mapped_file_path
  else PyStr.replace file_path upstream_prefix local_prefix.

(** ** JSON values, Python dicts and exceptions *)

(** What [json.load] yields and what the script stores in the cache.
    Epoch seconds ([time()]) are integers here. *)
Inductive json : Type :=
| JNull
| JBool (b : bool)
| JNum (z : Z)
| JStr (s : string)
| JArr (items : list json)
| JObj (fields : list (string * json)).

(** A Python dict with string keys: an association list in insertion
    order, keys unique. *)
Module Dict.
Section WithValue.
Context {V : Type}.

Definition t : Type := list (string * V).

(** [d.get(k)] *)
Fixpoint get (d : t) (k : string) : option V :=
  match d with
  | [] => None
  | (k', v) :: d' => if String.eqb k' k then Some v else get d' k
  end.

(** [k in d] *)
Definition mem (d : t) (k : string) : bool :=
  match get d k with Some _ => true | None => false end.

(** [d.get(k, dflt)] *)
Definition get_default (d : t) (k : string) (dflt : V) : V :=
  match get d k with Some v => v | None => dflt end.

(** [d[k] = v]: an existing key keeps its position, a new key goes last. *)
Fixpoint set (d : t) (k : string) (v : V) : t :=
  match d with
  | [] => [(k, v)]
  | (k', v') :: d' =>
      if String.eqb k' k then (k', v) :: d' else (k', v') :: set d' k v
  end.

Definition keys (d : t) : list string := map fst d.
End WithValue.
Arguments t V : clear implicits.
End Dict.

Inductive exn : Type :=
| KeyError (key : string)
| TypeError
| AttributeError
| IndexError
| AssertionError
| GithubException
| SystemExit (status : Z)
| OutOfFuel.   (* not a Python exception: the traversal loop below ran out
                  of fuel; [walk_contents_fuel] shows it does not happen *)

Inductive result (A : Type) : Type :=
| Ok (a : A)
| Raise (e : exn).
Arguments Ok {A} a.
Arguments Raise {A} e.

(** Exit status of the interpreter when [e] reaches the top level. *)
Definition exit_status (e : exn) : Z :=
  match e with
  | SystemExit n => n
  | _ => 1
  end.

(** Python [==] on values read from JSON. *)
Fixpoint py_eq (a b : json) : bool :=
  match a, b with
  | JNull, JNull => true
  | JBool x, JBool y => Bool.eqb x y
  | JBool x, JNum y => (Z.b2z x =? y)%Z
  | JNum x, JBool y => (x =? Z.b2z y)%Z
  | JNum x, JNum y => (x =? y)%Z
  | JStr x, JStr y => String.eqb x y
  | JArr x, JArr y =>
      (fix all2 (x : list json) (y : list json) : bool :=
         match x, y with
         | [], [] => true
         | a' :: x', b' :: y' => py_eq a' b' && all2 x' y'
         | _, _ => false
         end) x y
  | JObj x, JObj y =>
      (List.length x =? List.length y)%nat &&
      forallb (fun kv =>
                 match Dict.get y (fst kv) with
                 | Some v' => py_eq (snd kv) v'
                 | None => false
                 end) x
  | _, _ => false
  end.

(** The right operand of [current_time - cached_time]. *)
Definition num_of (j : json) : result Z :=
  match j with
  | JNum z => Ok z
  | JBool b => Ok (Z.b2z b)
  | _ => Raise TypeError
  end.

(** [x[key]] with a string key. *)
Definition py_getitem (x : json) (key : string) : result json :=
  match x with
  | JObj d =>
      match Dict.get d key with
      | Some v => Ok v
      | None => Raise (KeyError key)
      end
  | _ => Raise TypeError
  end.

(** [x[i]] with an integer literal. *)
Definition py_index (x : json) (i : nat) : result json :=
  match x with
  | JArr l =>
      match nth_error l i with
      | Some v => Ok v
      | None => Raise IndexError
      end
  | JStr s =>
      match String.get i s with
      | Some c => Ok (JStr (String c EmptyString))
      | None => Raise IndexError
      end
  | JObj _ => Raise (KeyError "0")
  | _ => Raise TypeError
  end.

Fixpoint chars (s : string) : list json :=
  match s with
  | EmptyString => []
  | String c s' => JStr (String c EmptyString) :: chars s'
  end.

(** [for x in v] *)
Definition py_iter (v : json) : result (list json) :=
  match v with
  | JArr l => Ok l
  | JObj d => Ok (map JStr (Dict.keys d))
  | JStr s => Ok (chars s)
  | _ => Raise TypeError
  end.

(** [repr] of a string without quotes, backslashes or control characters,
    and of a list of such strings. *)
Definition repr_str (s : string) : string := "'" ++ s ++ "'".

Definition repr_list (items : list string) : string :=
  "[" ++ String.concat ", " items ++ "]".

(** ** The world outside the process *)

(** The upstream tree as [repo.get_contents] shows it: an entry is a
    directory or something else; listing a directory may fail. *)
Inductive rnode : Type :=
| RFile (path : string)
| RDir (path : string) (children : option (list rnode)).

(** A local directory as [os.walk] sees it. *)
Inductive ldir : Type :=
| LDir (files : list string) (subdirs : list (string * ldir)).

(** What [yaml.safe_load] made of the front matter block: a mapping (values
    shown as [str] prints them) or some other YAML value. *)
Inductive yaml : Type :=
| YMap (fields : Dict.t string)
| YOther.

(** The cache file. *)
Inductive disk_file : Type :=
| NoFile
| Corrupt
| Valid (doc : Dict.t (Dict.t json)).

Record world : Type := {
  time_now : Z;                                   (* time() *)
  datetime_now : Z;                               (* datetime.now() *)
  get_repo_ok : bool;                             (* client.get_repo returns *)
  get_contents : string -> option (list rnode);   (* repo.get_contents(target_path) *)
  get_commits : string -> Z -> option (list string);
                                  (* shas of repo.get_commits(path, until), newest first *)
  author_date : string -> option Z;
                                  (* repo.get_commit(sha).commit.author.date *)
  strftime : Z -> string;                         (* '%Y-%m-%d %H:%M:%S' *)
  strptime : string -> option Z;                  (* '%Y%m%d'; None: ValueError *)
  front_matter : string -> option yaml;
                (* regex match and yaml.safe_load of extract_frontmatter; None: no
                   block or YAMLError *)
  isfile : string -> bool;                        (* os.path.isfile *)
  local_tree : string -> option ldir;             (* directory found at a root *)
  disk_writable : bool                            (* open(cache_file, 'w') and dump succeed *)
}.

(** ** GithubAnalyzer *)

Definition document : Type := Dict.t (Dict.t json).

Inductive event : Type :=
| EvGetRepo
| EvGetContents (path : string)
| EvGetCommits (path : string) (until : option Z)
| EvGetCommit (sha : string)
| EvFrontMatter (path : string).

(** The analyzer object, the cache file, and the calls made to the outside
    so far (newest first). *)
Record analyzer : Type := {
  cache : document;        (* self._cache *)
  repo : bool;             (* self.repo is not None *)
  disk : disk_file;        (* .github_analyzer_cache.json *)
  calls : list event
}.

Definition with_cache (a : analyzer) (c : document) : analyzer :=
  {| cache := c; repo := repo a; disk := disk a; calls := calls a |}.

Definition with_repo (a : analyzer) (r : bool) : analyzer :=
  {| cache := cache a; repo := r; disk := disk a; calls := calls a |}.

Definition with_disk (a : analyzer) (d : disk_file) : analyzer :=
  {| cache := cache a; repo := repo a; disk := d; calls := calls a |}.

Definition record_call (a : analyzer) (e : event) : analyzer :=
  {| cache := cache a; repo := repo a; disk := disk a; calls := e :: calls a |}.

Definition M (A : Type) : Type := analyzer -> result A * analyzer.

Definition ret {A} (x : A) : M A := fun a => (Ok x, a).
Definition raise {A} (e : exn) : M A := fun a => (Raise e, a).
Definition bind {A B} (m : M A) (k : A -> M B) : M B :=
  fun a =>
    match m a with
    | (Ok x, a') => k x a'
    | (Raise e, a') => (Raise e, a')
    end.

Notation "x <- m ;; k" := (bind m (fun x => k))
  (at level 61, m at next level, right associativity).
Notation "m ;;; k" := (bind m (fun _ => k))
  (at level 61, right associativity).

Definition _cache_ttl : Z := 86400 * 3.

(** [_load_cache]: no file or an unreadable one leaves the empty dict. *)
Definition _load_cache (f : disk_file) : document :=
  match f with
  | Valid doc => doc
  | NoFile | Corrupt => []
  end.

(** [__init__] *)
Definition __init__ (f : disk_file) : analyzer :=
  {| cache := _load_cache f; repo := false; disk := f; calls := [] |}.

(** [_save_cache]: a failed write is logged and swallowed. *)
Definition _save_cache (w : world) : M unit :=
  fun a =>
    (Ok tt, if disk_writable w then with_disk a (Valid (cache a)) else a).

(** [if self.repo is None: self.repo = self.client.get_repo(...)] *)
Definition ensure_repo (w : world) : M unit :=
  fun a =>
    if repo a then (Ok tt, a)
    else
      let a' := record_call a EvGetRepo in
      if get_repo_ok w then (Ok tt, with_repo a' true)
      else (Raise GithubException, a').

Definition remote_get_contents (w : world) (path : string) : M (list rnode) :=
  fun a =>
    let a' := record_call a (EvGetContents path) in
    match get_contents w path with
    | Some contents => (Ok contents, a')
    | None => (Raise GithubException, a')
    end.

Fixpoint rnode_size (n : rnode) : nat :=
  match n with
  | RFile _ => 1
  | RDir _ None => 1
  | RDir _ (Some cs) => S (list_sum (map rnode_size cs))
  end.

Definition forest_size (ns : list rnode) : nat := list_sum (map rnode_size ns).

(** The [while contents:] loop of [get_repo_files_recursively]; listing
    the sub-directory [file_content.path] gives that node's children. *)
Fixpoint walk_contents (fuel : nat) (exclude_dirs : list string)
    (contents : list rnode) (files : list string) : M (list string) :=
  match fuel with
  | O => raise OutOfFuel
  | S fuel' =>
      match contents with
      | [] => ret files
      | RFile path :: rest =>
          walk_contents fuel' exclude_dirs rest (files ++ [path])
      | RDir path children :: rest =>
          if existsb (String.eqb path) exclude_dirs
          then walk_contents fuel' exclude_dirs rest files
          else
            fun a =>
              let a' := record_call a (EvGetContents path) in
              match children with
              | None => (Raise GithubException, a')
              | Some cs => walk_contents fuel' exclude_dirs (rest ++ cs) files a'
              end
      end
  end.

(** [str([target_path, exclude_dirs])] *)
Definition files_cache_key (target_path : string) (exclude_dirs : list string) : string :=
  repr_list [repr_str target_path; repr_list (map repr_str exclude_dirs)].

(** [self._cache.setdefault(cache_type, {})[key] = v] *)
Definition setdefault_set (c : document) (cache_type key : string) (v : json) : document :=
  Dict.set c cache_type (Dict.set (Dict.get_default c cache_type []) key v).

(** The part of [get_repo_files_recursively] after the cache check. *)
Definition fetch_repo_files (w : world) (target_path : string)
    (exclude_dirs : list string) (current_time : Z) : M json :=
  ensure_repo w ;;;
  contents <- remote_get_contents w target_path ;;
  files <- walk_contents (S (forest_size contents)) exclude_dirs contents [] ;;
  (fun a =>
     let c1 := setdefault_set (cache a) "files" "cache_time" (JNum current_time) in
     let c2 := setdefault_set c1 "files" (files_cache_key target_path exclude_dirs)
                 (JArr (map JStr files)) in
     (Ok tt, with_cache a c2)) ;;;
  _save_cache w ;;;
  ret (JArr (map JStr files)).

Definition get_repo_files_recursively (w : world) (target_path : string)
    (exclude_dirs : list string) : M json :=
  fun a =>
    let cache_type := "files" in
    let cache_key := files_cache_key target_path exclude_dirs in
    let current_time := time_now w in
    match Dict.get (Dict.get_default (cache a) cache_type []) cache_key with
    | Some cached_files =>
        match Dict.get (Dict.get_default (cache a) cache_type []) "cache_time" with
        | None => (Raise (KeyError "cache_time"), a)
        | Some ct =>
            match num_of ct with
            | Raise e => (Raise e, a)
            | Ok cached_time =>
                if (current_time - cached_time <? _cache_ttl)%Z
                then (Ok cached_files, a)
                else fetch_repo_files w target_path exclude_dirs current_time a
            end
        end
    | None => fetch_repo_files w target_path exclude_dirs current_time a
    end.

Definition remote_get_commits (w : world) (path : string) (until : option Z)
  : M (list string) :=
  fun a =>
    match until with
    | None => (Raise AssertionError, a)   (* the client wants a datetime *)
    | Some t =>
        let a' := record_call a (EvGetCommits path until) in
        match get_commits w path t with
        | Some shas => (Ok shas, a')
        | None => (Raise GithubException, a')
        end
    end.

Definition remote_author_date (w : world) (sha : string) : M Z :=
  fun a =>
    let a' := record_call a (EvGetCommit sha) in
    match author_date w sha with
    | Some d => (Ok d, a')
    | None => (Raise GithubException, a')
    end.

(** [get_file_commit_and_date]: the pair [[sha, date_str]].  Both log lines
    format [until_date.strftime(...)], and the one in the [try] block also
    [latest_commit.sha]. *)
Definition get_file_commit_and_date (w : world) (upstream_file_path : string)
    (until_date : option Z) : M (json * json) :=
  fun a =>
    let try_block : M (json * json) :=
      ensure_repo w ;;;
      commits <- remote_get_commits w upstream_file_path until_date ;;
      let latest_commit := hd_error commits in
      commit_date <- match latest_commit with
                     | Some sha => d <- remote_author_date w sha ;; ret (Some d)
                     | None => ret None
                     end ;;
      let commit_date_str :=
        match commit_date with
        | Some d => JStr (strftime w d)
        | None => JNull
        end in
      match until_date, latest_commit with
      | Some _, Some sha => ret (JStr sha, commit_date_str)
      | _, _ => raise AttributeError
      end in
    match try_block a with
    | (Ok r, a') => (Ok r, a')
    | (Raise (SystemExit n), a') => (Raise (SystemExit n), a')
    | (Raise _, a') =>
        match until_date with
        | Some _ => (Ok (JNull, JNull), a')
        | None => (Raise AttributeError, a')
        end
    end.

(** [extract_frontmatter] *)
Definition extract_frontmatter (w : world) (md_file : string) : M (option yaml) :=
  fun a => (Ok (front_matter w md_file), record_call a (EvFrontMatter md_file)).

(** The [try] block around [yaml_header['collected_date']] and [strptime];
    any exception there ends in [sys.exit(1)]. *)
Definition collected_date_of (w : world) (yaml_header : option yaml) : result Z :=
  match yaml_header with
  | Some (YMap fields) =>
      match Dict.get fields "collected_date" with
      | Some collected_date_str =>
          match strptime w collected_date_str with
          | Some collected_date => Ok collected_date
          | None => Raise (SystemExit 1)
          end
      | None => Raise (SystemExit 1)
      end
  | _ => Raise (SystemExit 1)
  end.

(** Local state of [get_files_commits_and_dates]. *)
Record batch : Type := {
  self : analyzer;
  commits : Dict.t json;
  changed : bool
}.

Definition MB (A : Type) : Type := batch -> result A * batch.

Definition lift_self {A} (m : M A) : MB A :=
  fun b =>
    let (r, a') := m (self b) in
    (r, {| self := a'; commits := commits b; changed := changed b |}).

Definition lift_result {A} (r : result A) : MB A := fun b => (r, b).

Definition bindB {A B} (m : MB A) (k : A -> MB B) : MB B :=
  fun b =>
    match m b with
    | (Ok x, b') => k x b'
    | (Raise e, b') => (Raise e, b')
    end.

Notation "x <-- m ;; k" := (bindB m (fun x => k))
  (at level 61, m at next level, right associativity).

(** [commits[k] = v] *)
Definition set_commit (k : string) (v : json) : MB unit :=
  fun b =>
    (Ok tt, {| self := self b; commits := Dict.set (commits b) k v;
               changed := changed b |}).

(** [commits[k][field] = v] *)
Definition set_commit_field (k field : string) (v : json) : MB unit :=
  fun b =>
    match Dict.get (commits b) k with
    | Some (JObj d) =>
        (Ok tt, {| self := self b;
                   commits := Dict.set (commits b) k (JObj (Dict.set d field v));
                   changed := changed b |})
    | Some _ => (Raise TypeError, b)
    | None => (Raise (KeyError k), b)
    end.

Definition set_changed : MB unit :=
  fun b => (Ok tt, {| self := self b; commits := commits b; changed := true |}).

(** [local_file_path in commits and current_time - cached_time < ttl] *)
Definition cache_alive (w : world) (cached_time : json) (local_file_path : string)
  : MB bool :=
  fun b =>
    if Dict.mem (commits b) local_file_path then
      match num_of cached_time with
      | Ok ct => (Ok (time_now w - ct <? _cache_ttl)%Z, b)
      | Raise e => (Raise e, b)
      end
    else (Ok false, b).

(** The loop body below the [continue]: re-derive the entry of one file. *)
Definition refresh_commit (w : world) (local_file_path : string) : MB unit :=
  _ <-- set_changed ;;
  _ <-- set_commit local_file_path
          (JObj [("collected", JObj []); ("latest", JObj [])]) ;;
  yaml_header <-- lift_self (extract_frontmatter w local_file_path) ;;
  collected_date <-- lift_result (collected_date_of w yaml_header) ;;
  let upstream_file_path := map_file_path local_file_path true in
  collected <-- lift_self
    (get_file_commit_and_date w upstream_file_path (Some collected_date)) ;;
  _ <-- set_commit_field local_file_path "collected"
          (JArr [fst collected; snd collected]) ;;
  let today_date := datetime_now w in
  latest <-- lift_self
    (get_file_commit_and_date w upstream_file_path (Some today_date)) ;;
  set_commit_field local_file_path "latest" (JArr [fst latest; snd latest]).

(** One turn of the [for local_file_path in local_file_list] loop. *)
Definition derive_commit (w : world) (cached_time : json) (local_file_path : string)
  : MB unit :=
  alive <-- cache_alive w cached_time local_file_path ;;
  if alive : bool then lift_result (Ok tt)
  else refresh_commit w local_file_path.

Fixpoint derive_commits (w : world) (cached_time : json)
    (local_file_list : list string) : MB unit :=
  match local_file_list with
  | [] => lift_result (Ok tt)
  | local_file_path :: rest =>
      _ <-- derive_commit w cached_time local_file_path ;;
      derive_commits w cached_time rest
  end.

(** [commits] is the namespace object itself when the document has one, so
    what the loop stored is in [self._cache] also when the loop is left by
    an exception. *)
Definition write_through (aliased : bool) (b : batch) : analyzer :=
  if aliased
  then with_cache (self b) (Dict.set (cache (self b)) "commits" (commits b))
  else self b.

Definition get_files_commits_and_dates (w : world) (local_file_list : list string)
  : M (Dict.t json) :=
  fun a =>
    let cache_type := "commits" in
    let aliased := Dict.mem (cache a) cache_type in
    let commits0 := Dict.get_default (cache a) cache_type [] in
    let cached_time := Dict.get_default commits0 "cache_time" (JNum 0) in
    match derive_commits w cached_time local_file_list
            {| self := a; commits := commits0; changed := false |} with
    | (Raise e, b) => (Raise e, write_through aliased b)
    | (Ok _, b) =>
        if changed b then
          let commits1 := Dict.set (commits b) "cache_time" (JNum (time_now w)) in
          let a1 := with_cache (self b) (Dict.set (cache (self b)) cache_type commits1) in
          let (_, a2) := _save_cache w a1 in
          (Ok commits1, a2)
        else (Ok (commits b), self b)
    end.

(** ** The two checks *)

Definition rbind {A B} (r : result A) (k : A -> result B) : result B :=
  match r with
  | Ok x => k x
  | Raise e => Raise e
  end.

Definition no_need_to_collect : list string := [".drawio"; ".patch"; ".sh"; ".py"].

(** The test of the [for upstream_file_path in upstream_file_list] loop. *)
Definition uncollected (w : world) (hctt_proj_path upstream_file_path : string) : bool :=
  let local_file_path :=
    PyStr.path_join hctt_proj_path (map_file_path upstream_file_path false) in
  negb (isfile w local_file_path) &&
  negb (PyStr.endswith_any upstream_file_path no_need_to_collect).

Fixpoint collection_loop (w : world) (hctt_proj_path : string)
    (upstream_file_list : list json) (uncollected_files : list string)
  : result (list string) :=
  match upstream_file_list with
  | [] => Ok uncollected_files
  | JStr upstream_file_path :: rest =>
      if uncollected w hctt_proj_path upstream_file_path
      then collection_loop w hctt_proj_path rest
             (uncollected_files ++ [upstream_file_path])
      else collection_loop w hctt_proj_path rest uncollected_files
  | _ :: _ => Raise AttributeError   (* no [replace] on a non-string *)
  end.

Definition check_collection (w : world) (hctt_proj_path : string) : M (list string) :=
  upstream_file_list <-
    get_repo_files_recursively w "docs/" ["docs/translations"] ;;
  (fun a =>
     (rbind (py_iter upstream_file_list)
        (fun items => collection_loop w hctt_proj_path items []), a)).

Definition tranlatable_file_suffix : list string := [".md"; ".txt"].

(** [os.walk(top)] over the directory found there, top-down. *)
Fixpoint os_walk (top : string) (d : ldir) : list (string * list string) :=
  match d with
  | LDir files subdirs =>
      (top, files) ::
      flat_map (fun sub => os_walk (PyStr.path_join top (fst sub)) (snd sub)) subdirs
  end.

(** The scan at the head of [check_update]. *)
Definition scan_local (w : world) (sources_syzkaller : string) : list string :=
  match local_tree w sources_syzkaller with
  | None => []
  | Some d =>
      flat_map
        (fun rf =>
           map (PyStr.path_join (fst rf))
             (filter (fun fn => PyStr.endswith_any fn tranlatable_file_suffix)
                (snd rf)))
        (os_walk sources_syzkaller d)
  end.

(** [collected_commit_sha != latest_commit_sha], after the four subscripts. *)
Definition is_stale (commit_info : json) : result bool :=
  rbind (py_getitem commit_info "collected") (fun collected =>
  rbind (py_index collected 0) (fun collected_commit_sha =>
  rbind (py_index collected 1) (fun _ =>
  rbind (py_getitem commit_info "latest") (fun latest =>
  rbind (py_index latest 0) (fun latest_commit_sha =>
  rbind (py_index latest 1) (fun _ =>
  Ok (negb (py_eq collected_commit_sha latest_commit_sha)))))))).

(** The [for local_file_path, commit_info in commits.items()] loop. *)
Fixpoint stale_loop (items : list (string * json)) (need_update_files : list string)
  : result (list string) :=
  match items with
  | [] => Ok need_update_files
  | (local_file_path, commit_info) :: rest =>
      if String.eqb local_file_path "cache_time"
      then stale_loop rest need_update_files
      else
        match is_stale commit_info with
        | Raise e => Raise e
        | Ok true => stale_loop rest (need_update_files ++ [local_file_path])
        | Ok false => stale_loop rest need_update_files
        end
  end.

Definition check_update (w : world) (sources_syzkaller : string) : M (list string) :=
  let local_file_list := scan_local w sources_syzkaller in
  commits <- get_files_commits_and_dates w local_file_list ;;
  (fun a => (stale_loop commits [], a)).

Definition main (w : world) : M unit :=
  check_collection w "." ;;;
  check_update w "sources/syzkaller" ;;;
  ret tt.

(** Exit status of one run of the script against a cache file. *)
Definition run_status (w : world) (f : disk_file) : Z :=
  match main w (__init__ f) with
  | (Ok _, _) => 0
  | (Raise e, _) => exit_status e
  end.

(** ** Shapes and sample data *)

(** The entry [get_files_commits_and_dates] stores for one file. *)
Definition commit_record (collected_sha collected_date latest_sha latest_date : json)
  : json :=
  JObj [("collected", JArr [collected_sha; collected_date]);
        ("latest", JArr [latest_sha; latest_date])].

(** A nullable sha as it sits in the record. *)
Definition sha_json (sha : option string) : json :=
  match sha with
  | Some s => JStr s
  | None => JNull
  end.

(** Every sub-directory that the traversal opens can be listed. *)
Fixpoint listable (exclude_dirs : list string) (n : rnode) : bool :=
  match n with
  | RFile _ => true
  | RDir path children =>
      existsb (String.eqb path) exclude_dirs ||
      match children with
      | None => false
      | Some cs => forallb (listable exclude_dirs) cs
      end
  end.

(** The document invariant of the data model: a namespace that is present
    has a [cache_time]. *)
Definition has_cache_time (doc : document) : Prop :=
  forall (cache_type : string) (ns : Dict.t json),
    Dict.get doc cache_type = Some ns -> Dict.mem ns "cache_time" = true.

(** Calls to the remote client, as opposed to reads of local files. *)
Definition is_remote (e : event) : bool :=
  match e with
  | EvFrontMatter _ => false
  | _ => true
  end.

(** The local files whose front matter was read, oldest first. *)
Fixpoint files_read (evs : list event) : list string :=
  match evs with
  | [] => []
  | EvFrontMatter p :: evs' => files_read evs' ++ [p]
  | _ :: evs' => files_read evs'
  end.

(** Keys of a dict after [d[k] = ...] for each [k] of a list in turn. *)
Fixpoint add_keys (ks : list string) (l : list string) : list string :=
  match l with
  | [] => ks
  | k :: l' =>
      add_keys (if existsb (String.eqb k) ks then ks else ks ++ [k]) l'
  end.

(** The keys [check_update] reports from a commits namespace. *)
Definition stale_keys (commits : Dict.t json) : list string :=
  map fst
    (filter (fun kv =>
               negb (String.eqb (fst kv) "cache_time") &&
               match is_stale (snd kv) with
               | Ok true => true
               | _ => false
               end) commits).

Module Sample.

Definition upstream : list rnode :=
  [RFile "docs/setup.md";
   RDir "docs/linux"
     (Some [RFile "docs/linux/setup.md"; RFile "docs/linux/run.sh"]);
   RDir "docs/translations" (Some [RFile "docs/translations/zh.md"]);
   RFile "docs/usage.md"].

Definition local : ldir :=
  LDir ["README.txt"; "setup.md"; "logo.png"]
       [("linux", LDir ["setup.md"] [])].

(** [setup.md] changed upstream after it was collected; [linux/setup.md]
    did not; [README.txt] has no front matter. *)
Definition w : world := {|
  time_now := 1000000%Z;
  datetime_now := 20250301%Z;
  get_repo_ok := true;
  get_contents := fun p => if String.eqb p "docs/" then Some upstream else None;
  get_commits := fun p until =>
    if String.eqb p "docs/setup.md"
    then Some (if (20250201 <=? until)%Z then ["def456"; "abc123"] else ["abc123"])
    else if String.eqb p "docs/linux/setup.md" then Some ["0a1b2c"]
    else Some [];
  author_date := fun sha => Some 20250101%Z;
  strftime := fun _ => "2025-01-01 00:00:00";
  strptime := fun s => if String.eqb s "20250110" then Some 20250110%Z else None;
  front_matter := fun p =>
    if String.eqb p "sources/syzkaller/README.txt" then None
    else Some (YMap [("collected_date", "20250110")]);
  isfile := fun p => String.eqb p "./sources/syzkaller/setup.md";
  local_tree := fun root =>
    if String.eqb root "sources/syzkaller" then Some local else None;
  disk_writable := true
|}.

(** The same world with only the two well-formed files on disk. *)
Definition w_clean : world := {|
  time_now := time_now w;
  datetime_now := datetime_now w;
  get_repo_ok := get_repo_ok w;
  get_contents := get_contents w;
  get_commits := get_commits w;
  author_date := author_date w;
  strftime := strftime w;
  strptime := strptime w;
  front_matter := front_matter w;
  isfile := isfile w;
  local_tree := fun root =>
    if String.eqb root "sources/syzkaller"
    then Some (LDir ["setup.md"] [("linux", LDir ["setup.md"] [])])
    else None;
  disk_writable := true
|}.

Definition files_key : string := files_cache_key "docs/" ["docs/translations"].

(** A cache file written 100 seconds ago. *)
Definition fresh_doc : document :=
  [("files",
    [("cache_time", JNum 999900%Z);
     (files_key, JArr [JStr "docs/setup.md"; JStr "docs/linux/run.sh";
                       JStr "docs/usage.md"])]);
   ("commits",
    [("sources/syzkaller/README.txt",
      commit_record (JStr "111aaa") JNull (JStr "111aaa") JNull);
     ("sources/syzkaller/gone.md",
      commit_record (JStr "abc123") JNull (JStr "def456") JNull);
     ("cache_time", JNum 999900%Z)])].

(** A cache file whose [files] namespace lost its [cache_time]. *)
Definition broken_doc : document :=
  [("files", [(files_key, JArr [JStr "docs/setup.md"])])].

End Sample.

(** [a'] is [a] after some calls to the remote client: the cache and the
    cache file are as they were. *)
Definition after_remote_calls (a a' : analyzer) : Prop :=
  cache a' = cache a /\ disk a' = disk a /\
  exists new, calls a' = (new ++ calls a)%list /\ forallb is_remote new = true.

(** The test at the head of the loop body, on the namespace alone. *)
Definition alive_test (w : world) (cached_time : json) (commits : Dict.t json)
    (local_file_path : string) : result bool :=
  if Dict.mem commits local_file_path then
    match num_of cached_time with
    | Ok ct => Ok (time_now w - ct <? _cache_ttl)%Z
    | Raise e => Raise e
    end
  else Ok false.

(** The entry as it is between the first assignment and the lookups. *)
Definition empty_record : json := JObj [("collected", JObj []); ("latest", JObj [])].

(** A file whose front matter is missing, is not a mapping, has no
    [collected_date], or has one that [strptime] rejects. *)
Definition unusable_front_matter (w : world) (p : string) : Prop :=
  match front_matter w p with
  | Some (YMap fields) =>
      match Dict.get fields "collected_date" with
      | Some s => strptime w s = None
      | None => True
      end
  | _ => True
  end.

(** Whether the entry stored under [p] is flagged by the comparator. *)
Definition stale_at (commits : Dict.t json) (p : string) : bool :=
  match Dict.get commits p with
  | Some info =>
      match is_stale info with
      | Ok true => true
      | _ => false
      end
  | None => false
  end.

Definition not_cache_time (k : string) : bool := negb (String.eqb k "cache_time").

(** ** Reference listings *)

(** Paths of the entries of a listing that are not directories. *)
Fixpoint files_of (level : list rnode) : list string :=
  match level with
  | [] => []
  | RFile path :: rest => path :: files_of rest
  | RDir _ _ :: rest => files_of rest
  end.

(** Entries one level down: the children of the directories of a listing
    that are not excluded. *)
Fixpoint children_of (exclude_dirs : list string) (level : list rnode) : list rnode :=
  match level with
  | [] => []
  | RFile _ :: rest => children_of exclude_dirs rest
  | RDir path children :: rest =>
      if existsb (String.eqb path) exclude_dirs
      then children_of exclude_dirs rest
      else
        match children with
        | Some cs => (cs ++ children_of exclude_dirs rest)%list
        | None => children_of exclude_dirs rest
        end
  end.

(** The files of the first [depth] levels, level by level. *)
Fixpoint levels (depth : nat) (exclude_dirs : list string) (level : list rnode)
  : list string :=
  match depth with
  | O => []
  | S d => (files_of level ++ levels d exclude_dirs (children_of exclude_dirs level))%list
  end.

Definition level_order (exclude_dirs : list string) (contents : list rnode)
  : list string :=
  levels (S (forest_size contents)) exclude_dirs contents.

(** The files below a node outside every excluded directory. *)
Fixpoint reachable_files (exclude_dirs : list string) (n : rnode) : list string :=
  match n with
  | RFile path => [path]
  | RDir path children =>
      if existsb (String.eqb path) exclude_dirs then []
      else
        match children with
        | Some cs => flat_map (reachable_files exclude_dirs) cs
        | None => []
        end
  end.

(** No file or directory name of a local tree begins with a slash. *)
Fixpoint plain_names (d : ldir) : bool :=
  match d with
  | LDir files subdirs =>
      forallb (fun fn => negb (PyStr.startswith fn "/")) files &&
      forallb (fun sub => negb (PyStr.startswith (fst sub) "/") &&
                          plain_names (snd sub)) subdirs
  end.

(** [e] is a [SystemExit]. *)
Definition is_exit (e : exn) : bool :=
  match e with
  | SystemExit _ => true
  | _ => false
  end.

(** Every entry of a commits namespace other than the clock can be read
    by the comparator. *)
Definition readable_records (commits : Dict.t json) : Prop :=
  Forall (fun kv => fst kv = "cache_time" \/ exists b, is_stale (snd kv) = Ok b)
         commits.

(** The cache file, when it is a document, has a [cache_time] in every
    namespace. *)
Definition file_has_cache_time (f : disk_file) : Prop :=
  match f with
  | Valid doc => has_cache_time doc
  | NoFile | Corrupt => True
  end.

Module SampleCached.

(** A cache file written 100 seconds ago that knows every scanned file. *)
Definition doc : document :=
  [("commits",
    [("sources/syzkaller/README.txt",
      commit_record (JStr "111aaa") JNull (JStr "222bbb") JNull);
     ("sources/syzkaller/setup.md",
      commit_record (JStr "abc123") JNull (JStr "abc123") JNull);
     ("sources/syzkaller/linux/setup.md",
      commit_record (JStr "0a1b2c") JNull (JStr "0a1b2c") JNull);
     ("cache_time", JNum 999900%Z)])].

End SampleCached.

(** How often the repository handle was requested from the client. *)
Definition handle_requests (a : analyzer) : nat :=
  List.length (filter (fun e => match e with EvGetRepo => true | _ => false end)
                 (calls a)).

(** The requests made so far, plus the one still to come while the handle
    is missing. *)
Definition handle_debt (a : analyzer) : nat :=
  handle_requests a + (if repo a then 0 else 1).

(** From [a] to [a'] the handle was requested only if it was missing, and
    was not lost. *)
Definition same_handle (a a' : analyzer) : Prop :=
  handle_debt a' = handle_debt a /\ (repo a = true -> repo a' = true).

(** * Properties *)

(** ** Strings *)

Section StringFacts.

Lemma prefix_app (p t : string) : prefix p (p ++ t) = true.
Proof.
  induction p as [|c p IH]; simpl.
  - now destruct t.
  - destruct (ascii_dec c c); [exact IH | congruence].
Qed.

Lemma prefix_split (p s : string) :
  prefix p s = true -> exists t, s = p ++ t.
Proof.
  revert s; induction p as [|c p IH]; intros s H.
  - now exists s.
  - destruct s as [|c' s]; simpl in H; [discriminate|].
    destruct (ascii_dec c c'); [subst c'|discriminate].
    destruct (IH _ H) as [t ->]. now exists t.
Qed.

Lemma replace_from_skip (old new u t : string) :
  PyStr.replace_from (String.length u) old new (u ++ t)
  = PyStr.replace_from 0 old new t.
Proof. induction u as [|c u IH]; simpl; [reflexivity | exact IH]. Qed.

Lemma replace_cons (old new : string) (c : ascii) (s : string) :
  PyStr.replace (String c s) old new =
  if prefix old (String c s)
  then new ++ PyStr.replace_from (String.length old - 1) old new s
  else String c (PyStr.replace s old new).
Proof. reflexivity. Qed.

Lemma replace_at_prefix (old new t : string) :
  old <> "" ->
  PyStr.replace (old ++ t) old new = new ++ PyStr.replace t old new.
Proof.
  destruct old as [|c old]; [congruence|]; intros _.
  change (String c old ++ t) with (String c (old ++ t)).
  rewrite replace_cons.
  change (String c (old ++ t)) with (String c old ++ t).
  rewrite prefix_app.
  replace (String.length (String c old) - 1) with (String.length old)
    by (simpl; lia).
  now rewrite replace_from_skip.
Qed.

Lemma replace_no_prefix (old new : string) (c : ascii) (s : string) :
  prefix old (String c s) = false ->
  PyStr.replace (String c s) old new = String c (PyStr.replace s old new).
Proof. intros H. now rewrite replace_cons, H. Qed.

Lemma occurs_cons (pat : string) (c : ascii) (s : string) :
  PyStr.occurs pat (String c s) = prefix pat (String c s) || PyStr.occurs pat s.
Proof. reflexivity. Qed.

Lemma occurs_app_r (pat u t : string) :
  PyStr.occurs pat (u ++ t) = false -> PyStr.occurs pat t = false.
Proof.
  induction u as [|c u IH]; [trivial|].
  change (String c u ++ t) with (String c (u ++ t)).
  rewrite occurs_cons. intros H.
  apply orb_false_iff in H. tauto.
Qed.

(** A string in which [old] does not occur is left alone. *)
Lemma replace_absent (old new s : string) :
  PyStr.occurs old s = false -> PyStr.replace s old new = s.
Proof.
  induction s as [|c s IH]; [reflexivity|].
  rewrite occurs_cons. intros H.
  apply orb_false_iff in H. destruct H as [Hp Ho].
  rewrite replace_no_prefix by exact Hp.
  now rewrite IH.
Qed.

(** The first character of a replaced string, when it is not the first
    character of [new], was the first character of the input. *)
Lemma replace_head (old new s r : string) (d a : ascii) (new' : string) :
  new = String d new' ->
  PyStr.replace s old new = String a r ->
  a <> d ->
  exists s', s = String a s' /\ r = PyStr.replace s' old new.
Proof.
  intros -> H Ha.
  destruct s as [|c s]; [discriminate|].
  rewrite replace_cons in H.
  destruct (prefix old (String c s)).
  - simpl in H. congruence.
  - injection H as -> <-. now exists s.
Qed.

Lemma string_length_app (u t : string) :
  String.length (u ++ t) = String.length u + String.length t.
Proof. induction u; simpl; congruence. Qed.

(** Replacing the local prefix never creates an occurrence of the upstream
    prefix at a position where the input had other text. *)
Lemma no_new_upstream_prefix (c : ascii) (s : string) :
  prefix local_prefix (String c s) = false ->
  prefix upstream_prefix
    (String c (PyStr.replace s local_prefix upstream_prefix)) = true ->
  prefix upstream_prefix (String c s) = true.
Proof.
  intros _ H.
  apply prefix_split in H. destruct H as [t H].
  unfold upstream_prefix in H. simpl in H.
  injection H as -> H.
  eapply replace_head in H; [| reflexivity | discriminate].
  destruct H as (s1 & -> & H).
  symmetry in H.
  eapply replace_head in H; [| reflexivity | discriminate].
  destruct H as (s2 & -> & H).
  symmetry in H.
  eapply replace_head in H; [| reflexivity | discriminate].
  destruct H as (s3 & -> & H).
  symmetry in H.
  eapply replace_head in H; [| reflexivity | discriminate].
  destruct H as (s4 & -> & H).
  exact (prefix_app upstream_prefix s4).
Qed.

Lemma replace_roundtrip_bounded (n : nat) :
  forall s : string,
    String.length s <= n ->
    PyStr.occurs upstream_prefix s = false ->
    PyStr.replace (PyStr.replace s local_prefix upstream_prefix)
      upstream_prefix local_prefix = s.
Proof.
  induction n as [|n IH]; intros [|c s] Hlen Hocc; try reflexivity.
  - simpl in Hlen. lia.
  - destruct (prefix local_prefix (String c s)) eqn:E.
    + apply prefix_split in E. destruct E as [t E]. rewrite E in *.
      rewrite replace_at_prefix by discriminate.
      rewrite replace_at_prefix by discriminate.
      rewrite IH; [reflexivity | | eapply occurs_app_r; eassumption].
      rewrite string_length_app in Hlen. simpl in Hlen. lia.
    + rewrite occurs_cons in Hocc. apply orb_false_iff in Hocc.
      destruct Hocc as [Hp Ho].
      rewrite (replace_no_prefix _ _ _ _ E).
      rewrite replace_no_prefix.
      * rewrite IH; [reflexivity | simpl in Hlen; lia | exact Ho].
      * destruct (prefix upstream_prefix
                    (String c (PyStr.replace s local_prefix upstream_prefix))) eqn:E2;
          [|reflexivity].
        apply (no_new_upstream_prefix _ _ E) in E2. congruence.
Qed.

Lemma replace_roundtrip (s : string) :
  PyStr.occurs upstream_prefix s = false ->
  PyStr.replace (PyStr.replace s local_prefix upstream_prefix)
    upstream_prefix local_prefix = s.
Proof. apply (replace_roundtrip_bounded (String.length s)). lia. Qed.

Lemma replace_skips_upstream_prefix (t : string) :
  PyStr.replace (upstream_prefix ++ t) local_prefix upstream_prefix
  = upstream_prefix ++ PyStr.replace t local_prefix upstream_prefix.
Proof.
  unfold upstream_prefix. cbn [append].
  now rewrite !replace_no_prefix by reflexivity.
Qed.

Lemma occurs_after_local_prefix (t : string) :
  PyStr.occurs upstream_prefix (local_prefix ++ t) = PyStr.occurs upstream_prefix t.
Proof. reflexivity. Qed.

(** The way there and back never shortens a string, and lengthens it when
    "docs/" occurs in it. *)
Lemma replace_roundtrip_grows (n : nat) :
  forall s : string,
    String.length s <= n ->
    String.length s
    <= String.length
         (PyStr.replace (PyStr.replace s local_prefix upstream_prefix)
            upstream_prefix local_prefix) /\
    (PyStr.occurs upstream_prefix s = true ->
     String.length s
     < String.length
         (PyStr.replace (PyStr.replace s local_prefix upstream_prefix)
            upstream_prefix local_prefix)).
Proof.
  induction n as [|n IH]; intros [|c s] Hlen.
  - split; [reflexivity | discriminate].
  - simpl in Hlen. lia.
  - split; [reflexivity | discriminate].
  - destruct (prefix local_prefix (String c s)) eqn:E.
    + apply prefix_split in E. destruct E as [t E]. rewrite E in *.
      rewrite !replace_at_prefix by discriminate.
      rewrite occurs_after_local_prefix, !string_length_app in *.
      change (String.length local_prefix) with 18 in *.
      destruct (IH t) as [H1 H2]; [lia|].
      split; [lia|]. intros H. apply H2 in H. lia.
    + rewrite (replace_no_prefix _ _ _ _ E).
      destruct (prefix upstream_prefix
                  (String c (PyStr.replace s local_prefix upstream_prefix))) eqn:E2.
      * apply (no_new_upstream_prefix _ _ E) in E2.
        apply prefix_split in E2. destruct E2 as [t E2].
        rewrite <- (replace_no_prefix _ _ _ _ E), E2.
        rewrite replace_skips_upstream_prefix.
        rewrite replace_at_prefix by discriminate.
        rewrite !string_length_app.
        destruct (IH t) as [H1 _].
        { apply (f_equal String.length) in E2.
          rewrite string_length_app in E2.
          change (String.length upstream_prefix) with 5 in E2.
          lia. }
        change (String.length upstream_prefix) with 5.
        change (String.length local_prefix) with 18.
        split; [lia | intros _; lia].
      * rewrite (replace_no_prefix _ _ _ _ E2).
        rewrite occurs_cons.
        assert (Hp : prefix upstream_prefix (String c s) = false).
        { destruct (prefix upstream_prefix (String c s)) eqn:E3; [|reflexivity].
          apply prefix_split in E3. destruct E3 as [t E3].
          rewrite <- (replace_no_prefix _ _ _ _ E), E3,
            replace_skips_upstream_prefix, prefix_app in E2. discriminate. }
        rewrite Hp. cbn [orb String.length].
        destruct (IH s) as [H1 H2]; [simpl in Hlen; lia|].
        split; [lia|]. intros H. apply H2 in H. lia.
Qed.

Lemma replace_roundtrip_only_if (s : string) :
  PyStr.replace (PyStr.replace s local_prefix upstream_prefix)
    upstream_prefix local_prefix = s ->
  PyStr.occurs upstream_prefix s = false.
Proof.
  intros H. destruct (PyStr.occurs upstream_prefix s) eqn:E; [|reflexivity].
  destruct (replace_roundtrip_grows (String.length s) s (le_n _)) as [_ G].
  apply G in E. rewrite H in E. lia.
Qed.

End StringFacts.

(** ** Path mapper *)

(** C6, as the code has it: a path that begins with the local prefix is
    mapped local-to-upstream and back to itself exactly when "docs/" does
    not occur in it. *)
Theorem map_file_path_roundtrip (p : string) :
  PyStr.startswith p local_prefix = true ->
  (map_file_path (map_file_path p true) false = p <->
   PyStr.occurs upstream_prefix p = false).
Proof.
  intros Hpre.
  unfold map_file_path at 2.
  assert (Hs : PyStr.startswith (PyStr.replace p local_prefix upstream_prefix) "./"
               = false).
  { apply prefix_split in Hpre. destruct Hpre as [t ->].
    rewrite replace_at_prefix by discriminate. reflexivity. }
  rewrite Hs. unfold map_file_path. split.
  - apply replace_roundtrip_only_if.
  - apply replace_roundtrip.
Qed.

Lemma map_file_path_roundtrip_witness :
  PyStr.startswith "sources/syzkaller/linux/setup.md" local_prefix = true /\
  map_file_path (map_file_path "sources/syzkaller/linux/setup.md" true) false
  = "sources/syzkaller/linux/setup.md".
Proof.
  split; [reflexivity|].
  apply (proj2 (map_file_path_roundtrip "sources/syzkaller/linux/setup.md" eq_refl)).
  reflexivity.
Defined.

(** C6 as stated fails: "docs/" inside the path is replaced on the way
    back as well. *)
Lemma map_file_path_roundtrip_fails :
  PyStr.startswith "sources/syzkaller/docs/setup.md" local_prefix = true /\
  map_file_path (map_file_path "sources/syzkaller/docs/setup.md" true) false
  = "sources/syzkaller/sources/syzkaller/setup.md" /\
  map_file_path (map_file_path "sources/syzkaller/docs/setup.md" true) false
  <> "sources/syzkaller/docs/setup.md".
Proof. repeat split. discriminate. Qed.

(** C7, as the code has it: a path in which neither prefix occurs is
    returned unchanged upstream-to-local; local-to-upstream returns it
    unchanged unless it begins with "./", which is then cut off. *)
Theorem map_file_path_passthrough (p : string) :
  PyStr.occurs local_prefix p = false ->
  PyStr.occurs upstream_prefix p = false ->
  map_file_path p false = p /\
  map_file_path p true = (if PyStr.startswith p "./" then PyStr.drop 2 p else p) /\
  (PyStr.startswith p "./" = false -> map_file_path p true = p).
Proof.
  intros Hl Hu.
  assert (E : map_file_path p true
              = if PyStr.startswith p "./" then PyStr.drop 2 p else p).
  { unfold map_file_path. now rewrite (replace_absent _ _ _ Hl). }
  repeat split.
  - unfold map_file_path. now apply replace_absent.
  - exact E.
  - intros H. now rewrite E, H.
Qed.

Lemma map_file_path_passthrough_witness :
  map_file_path "README.md" false = "README.md" /\
  map_file_path "README.md" true
  = (if PyStr.startswith "README.md" "./" then PyStr.drop 2 "README.md"
     else "README.md") /\
  (PyStr.startswith "README.md" "./" = false ->
   map_file_path "README.md" true = "README.md").
Proof. apply map_file_path_passthrough; reflexivity. Defined.

(** C7 as stated fails local-to-upstream on a path that begins with "./". *)
Lemma map_file_path_passthrough_fails :
  PyStr.occurs local_prefix "./README.md" = false /\
  PyStr.occurs upstream_prefix "./README.md" = false /\
  map_file_path "./README.md" true = "README.md" /\
  map_file_path "./README.md" true <> "./README.md".
Proof. repeat split. discriminate. Qed.

(** ** Examples *)

Example map_l2u_ex :
  map_file_path "sources/syzkaller/linux/setup.md" true = "docs/linux/setup.md".
Proof. reflexivity. Qed.

Example map_l2u_dot_ex :
  map_file_path "./sources/syzkaller/linux/setup.md" true = "docs/linux/setup.md".
Proof. reflexivity. Qed.

Example map_u2l_ex :
  map_file_path "docs/linux/setup.md" false = "sources/syzkaller/linux/setup.md".
Proof. reflexivity. Qed.

Example path_join_ex :
  PyStr.path_join "." "sources/syzkaller/a.md" = "./sources/syzkaller/a.md".
Proof. reflexivity. Qed.

Example endswith_ex :
  PyStr.endswith_any "docs/linux/run.sh" no_need_to_collect = true /\
  PyStr.endswith_any "docs/linux/setup.md" no_need_to_collect = false.
Proof. split; reflexivity. Qed.

(** ** Staleness comparator *)

Lemma is_stale_commit_record (c cd l ld : json) :
  is_stale (commit_record c cd l ld) = Ok (negb (py_eq c l)).
Proof. reflexivity. Qed.

Lemma py_eq_sha (c l : option string) :
  py_eq (sha_json c) (sha_json l) = true <-> c = l.
Proof.
  destruct c as [c|], l as [l|]; simpl; split; intros H;
    try discriminate; try reflexivity.
  - apply String.eqb_eq in H. now subst.
  - injection H as ->. apply String.eqb_refl.
Qed.

(** C2: a record is flagged exactly when the two shas differ; null is a
    value like any other. *)
Theorem stale_iff_sha_differs (c l : option string) (cd ld : json) :
  (is_stale (commit_record (sha_json c) cd (sha_json l) ld) = Ok true <-> c <> l) /\
  (is_stale (commit_record (sha_json c) cd (sha_json l) ld) = Ok false <-> c = l) /\
  (forall k acc, String.eqb k "cache_time" = false ->
     stale_loop [(k, commit_record (sha_json c) cd (sha_json l) ld)] acc
     = Ok (if py_eq (sha_json c) (sha_json l) then acc else (acc ++ [k])%list)) /\
  (forall s1 s2 : string, s1 <> s2 ->
     is_stale (commit_record (JStr s1) cd (JStr s2) ld) = Ok true) /\
  (forall s : string, is_stale (commit_record (JStr s) cd (JStr s) ld) = Ok false) /\
  (forall s : string,
     is_stale (commit_record JNull cd (JStr s) ld) = Ok true /\
     is_stale (commit_record (JStr s) cd JNull ld) = Ok true) /\
  is_stale (commit_record JNull cd JNull ld) = Ok false.
Proof.
  rewrite is_stale_commit_record.
  pose proof (py_eq_sha c l) as E.
  repeat split.
  - intros H Hcl. apply E in Hcl. rewrite Hcl in H. discriminate.
  - intros H. destruct (py_eq (sha_json c) (sha_json l)); [|reflexivity].
    exfalso. apply H. now apply E.
  - intros H. apply E. destruct (py_eq (sha_json c) (sha_json l)); [reflexivity|].
    discriminate.
  - intros H. apply E in H. now rewrite H.
  - intros k acc Hk. simpl. rewrite Hk.
    now destruct (py_eq (sha_json c) (sha_json l)).
  - intros s1 s2 H. rewrite is_stale_commit_record. simpl.
    apply String.eqb_neq in H. now rewrite H.
  - intros s. rewrite is_stale_commit_record. simpl. now rewrite String.eqb_refl.
Qed.

(** ** Remote metadata source *)

Lemma after_remote_calls_refl (a : analyzer) : after_remote_calls a a.
Proof. repeat split. now exists []. Qed.

Lemma after_remote_calls_trans (a b c : analyzer) :
  after_remote_calls a b -> after_remote_calls b c -> after_remote_calls a c.
Proof.
  intros (C1 & D1 & n1 & E1 & F1) (C2 & D2 & n2 & E2 & F2).
  repeat split; try congruence.
  exists (n2 ++ n1)%list. split.
  - now rewrite E2, E1, app_assoc.
  - now rewrite forallb_app, F1, F2.
Qed.

Lemma after_remote_calls_record (a : analyzer) (e : event) :
  is_remote e = true -> after_remote_calls a (record_call a e).
Proof.
  intros H. repeat split. exists [e]. split; [reflexivity|].
  simpl. now rewrite H.
Qed.

Lemma after_remote_calls_with_repo (a a' : analyzer) (r : bool) :
  after_remote_calls a a' -> after_remote_calls a (with_repo a' r).
Proof. intros (C & D & n & E & F). repeat split; trivial. now exists n. Qed.

Create HintDb remote.
#[local] Hint Resolve after_remote_calls_refl after_remote_calls_record
  after_remote_calls_with_repo : remote.

Ltac conjs :=
  repeat match goal with
         | |- after_remote_calls _ _ => fail 1
         | |- _ /\ _ => split
         end.

Lemma ensure_repo_spec (w : world) (a : analyzer) :
  exists r a', ensure_repo w a = (r, a') /\ after_remote_calls a a' /\
    (r = Ok tt \/ r = Raise GithubException) /\
    (r = Ok tt -> repo a' = true) /\
    (repo a = true -> r = Ok tt /\ a' = a) /\
    (repo a = false -> calls a' = EvGetRepo :: calls a) /\
    (repo a || get_repo_ok w = true -> r = Ok tt).
Proof.
  unfold ensure_repo.
  destruct (repo a) eqn:R.
  - exists (Ok tt), a. conjs; auto with remote. discriminate.
  - destruct (get_repo_ok w) eqn:G; eexists; eexists; (split; [reflexivity|]);
      conjs; auto with remote; try discriminate.
Qed.

(** The lookup with an instant supplied returns, and touches neither the
    cache nor the cache file. *)
Lemma commit_lookup_returns (w : world) (path : string) (t : Z) (a : analyzer) :
  exists (r : json * json) (a' : analyzer),
    get_file_commit_and_date w path (Some t) a = (Ok r, a') /\
    after_remote_calls a a'.
Proof.
  unfold get_file_commit_and_date, bind, remote_get_commits, remote_author_date,
    ret, raise.
  destruct (ensure_repo_spec w a) as (r0 & a0 & E0 & A0 & [-> | ->] & _);
    rewrite E0; [|now exists (JNull, JNull), a0].
  assert (A1 : after_remote_calls a (record_call a0 (EvGetCommits path (Some t))))
    by eauto using after_remote_calls_trans with remote.
  destruct (get_commits w path t) as [[|sha rest]|]; simpl;
    try (eexists; eexists; split; [reflexivity | exact A1]).
  assert (A2 : after_remote_calls a
                 (record_call (record_call a0 (EvGetCommits path (Some t)))
                    (EvGetCommit sha)))
    by eauto using after_remote_calls_trans with remote.
  destruct (author_date w sha); simpl;
    eexists; eexists; split; try reflexivity; exact A2.
Qed.

(** C9: with an instant supplied, the lookup always returns and never
    raises; what it returns is the null pair or the newest sha with its
    formatted author date; when no commit touches the path, or the client
    fails, it is the null pair. *)
Theorem commit_lookup_never_raises (w : world) (path : string) (t : Z) (a : analyzer) :
  exists (r : json * json) (a' : analyzer),
    get_file_commit_and_date w path (Some t) a = (Ok r, a') /\
    after_remote_calls a a' /\
    (r = (JNull, JNull) \/
     exists sha rest d,
       get_commits w path t = Some (sha :: rest) /\
       author_date w sha = Some d /\
       r = (JStr sha, JStr (strftime w d))) /\
    (get_commits w path t = Some [] -> r = (JNull, JNull)) /\
    (forall sha rest d,
       repo a || get_repo_ok w = true ->
       get_commits w path t = Some (sha :: rest) ->
       author_date w sha = Some d ->
       r = (JStr sha, JStr (strftime w d))).
Proof.
  unfold get_file_commit_and_date, bind, remote_get_commits, remote_author_date,
    ret, raise.
  destruct (ensure_repo_spec w a) as (r0 & a0 & E0 & A0 & [-> | ->] & _ & _ & _ & Hok);
    rewrite E0.
  - destruct (get_commits w path t) as [[|sha rest]|] eqn:GC; simpl.
    + exists (JNull, JNull), (record_call a0 (EvGetCommits path (Some t))).
      conjs; eauto using after_remote_calls_trans with remote;
        try discriminate.
    + destruct (author_date w sha) as [d|] eqn:AD; simpl.
      * eexists; eexists; split; [reflexivity|].
        conjs.
        -- eapply after_remote_calls_trans; [exact A0|].
           eapply after_remote_calls_trans; apply after_remote_calls_record;
             reflexivity.
        -- right. now exists sha, rest, d.
        -- discriminate.
        -- intros sha' rest' d' _ [= <- <-] H. rewrite AD in H.
           now injection H as ->.
      * eexists; eexists; split; [reflexivity|].
        conjs.
        -- eapply after_remote_calls_trans; [exact A0|].
           eapply after_remote_calls_trans; apply after_remote_calls_record;
             reflexivity.
        -- now left.
        -- discriminate.
        -- intros sha' rest' d _ [= <- <-] H. congruence.
    + exists (JNull, JNull), (record_call a0 (EvGetCommits path (Some t))).
      conjs; eauto using after_remote_calls_trans with remote;
        try discriminate.
  - exists (JNull, JNull), a0. conjs; auto.
    intros sha rest d H. apply Hok in H. discriminate.
Qed.

(** Without an instant the failure handler itself fails: its log line
    formats [until_date]. *)
Lemma commit_lookup_without_instant (w : world) (path : string) (a : analyzer) :
  exists a', get_file_commit_and_date w path None a = (Raise AttributeError, a').
Proof.
  unfold get_file_commit_and_date, bind, remote_get_commits.
  destruct (ensure_repo_spec w a) as (r0 & a0 & E0 & _ & [-> | ->] & _);
    rewrite E0; now eexists.
Qed.

(** ** Dicts *)

Section DictFacts.
Context {V : Type}.
Implicit Types (d : Dict.t V) (k : string) (v : V).

Lemma get_set_same d k v : Dict.get (Dict.set d k v) k = Some v.
Proof.
  induction d as [|[k' v'] d IH]; simpl.
  - now rewrite String.eqb_refl.
  - destruct (String.eqb k' k) eqn:E; simpl; now rewrite E.
Qed.

Lemma get_set_other d k k' v :
  k' <> k -> Dict.get (Dict.set d k v) k' = Dict.get d k'.
Proof.
  intros N. induction d as [|[k0 v0] d IH]; simpl.
  - apply String.eqb_neq in N. rewrite String.eqb_sym in N. now rewrite N.
  - destruct (String.eqb k0 k) eqn:E; simpl.
    + apply String.eqb_eq in E. subst k0.
      apply String.eqb_neq in N. rewrite String.eqb_sym in N. now rewrite N.
    + now rewrite IH.
Qed.

Lemma mem_set_same d k v : Dict.mem (Dict.set d k v) k = true.
Proof. unfold Dict.mem. now rewrite get_set_same. Qed.

Lemma mem_set_other d k k' v :
  k' <> k -> Dict.mem (Dict.set d k v) k' = Dict.mem d k'.
Proof. intros N. unfold Dict.mem. now rewrite get_set_other. Qed.

Lemma set_set d k v v' : Dict.set (Dict.set d k v) k v' = Dict.set d k v'.
Proof.
  induction d as [|[k0 v0] d IH]; simpl.
  - now rewrite String.eqb_refl.
  - destruct (String.eqb k0 k) eqn:E; simpl; rewrite E; [reflexivity|].
    now rewrite IH.
Qed.

Lemma mem_keys d k : Dict.mem d k = existsb (String.eqb k) (Dict.keys d).
Proof.
  unfold Dict.mem. induction d as [|[k0 v0] d IH]; simpl; [reflexivity|].
  rewrite (String.eqb_sym k k0).
  destruct (String.eqb k0 k); simpl; [reflexivity | exact IH].
Qed.

Lemma keys_set d k v :
  Dict.keys (Dict.set d k v)
  = if Dict.mem d k then Dict.keys d else (Dict.keys d ++ [k])%list.
Proof.
  unfold Dict.mem. induction d as [|[k0 v0] d IH]; simpl; [reflexivity|].
  destruct (String.eqb k0 k) eqn:E; simpl; [reflexivity|].
  rewrite IH. now destruct (Dict.get d k).
Qed.

Lemma get_In d k v : Dict.get d k = Some v -> In (k, v) d.
Proof.
  induction d as [|[k0 v0] d IH]; simpl; [discriminate|].
  destruct (String.eqb k0 k) eqn:E.
  - apply String.eqb_eq in E. intros [= ->]. left. now subst.
  - intros H. right. auto.
Qed.
End DictFacts.

Lemma get_setdefault_same (c : document) (t k : string) (v : json) :
  Dict.get (Dict.get_default (setdefault_set c t k v) t []) k = Some v.
Proof.
  unfold setdefault_set, Dict.get_default at 1.
  now rewrite get_set_same, get_set_same.
Qed.

Lemma get_setdefault_other (c : document) (t k k' : string) (v : json) :
  k' <> k ->
  Dict.get (Dict.get_default (setdefault_set c t k v) t []) k'
  = Dict.get (Dict.get_default c t []) k'.
Proof.
  intros N. unfold setdefault_set, Dict.get_default at 1.
  now rewrite get_set_same, get_set_other.
Qed.

Lemma files_cache_key_not_cache_time (target : string) (excl : list string) :
  "cache_time" <> files_cache_key target excl.
Proof. unfold files_cache_key, repr_list. simpl. discriminate. Qed.

(** ** Directory listings *)

Lemma rnode_size_pos (n : rnode) : 1 <= rnode_size n.
Proof. destruct n as [p|p [cs|]]; simpl; lia. Qed.

Lemma forest_size_cons (n : rnode) (q : list rnode) :
  forest_size (n :: q) = rnode_size n + forest_size q.
Proof. reflexivity. Qed.

Lemma rnode_size_dir (p : string) (cs : list rnode) :
  rnode_size (RDir p (Some cs)) = S (forest_size cs).
Proof. reflexivity. Qed.

(** Sizes as opaque numbers, then linear arithmetic. *)
Ltac size_lia :=
  repeat match goal with
         | H : context [forest_size ?q] |- _ =>
             let n := fresh "n" in
             set (n := forest_size q) in *; clearbody n
         | |- context [forest_size ?q] =>
             let n := fresh "n" in
             set (n := forest_size q) in *; clearbody n
         | H : context [rnode_size ?x] |- _ =>
             let n := fresh "n" in
             set (n := rnode_size x) in *; clearbody n
         end;
  lia.

Lemma forest_size_app (q1 q2 : list rnode) :
  forest_size (q1 ++ q2) = forest_size q1 + forest_size q2.
Proof. unfold forest_size. now rewrite map_app, list_sum_app. Qed.

(** With fuel above the size of the queue the traversal ends on its own:
    it returns the files, or fails where a directory cannot be listed. *)
Lemma walk_contents_fuel (fuel : nat) (excl : list string) :
  forall (queue : list rnode) (files : list string) (a : analyzer),
    forest_size queue < fuel ->
    exists r a',
      walk_contents fuel excl queue files a = (r, a') /\
      after_remote_calls a a' /\
      (r = Raise GithubException \/ exists files', r = Ok files') /\
      (forallb (listable excl) queue = true -> exists files', r = Ok files').
Proof.
  induction fuel as [|fuel IH]; intros queue files a Hlt; [lia|].
  destruct queue as [|[p|p cs] rest]; cbn [walk_contents].
  - exists (Ok files), a. conjs; eauto with remote.
  - apply (IH rest (files ++ [p])%list a).
    rewrite forest_size_cons in Hlt. simpl rnode_size in Hlt. size_lia.
  - pose proof (rnode_size_pos (RDir p cs)) as Hpos.
    rewrite forest_size_cons in Hlt.
    assert (Hrest : forest_size rest < fuel) by size_lia.
    destruct (existsb (String.eqb p) excl) eqn:X.
    { destruct (IH rest files a Hrest) as (r & a' & E & A & S1 & S2).
      exists r, a'. conjs; auto.
      intros H. apply S2. cbn [forallb] in H.
      apply andb_true_iff in H. tauto. }
    destruct cs as [cs|].
    + assert (Hq : forest_size (rest ++ cs) < fuel).
      { rewrite forest_size_app. rewrite rnode_size_dir in Hlt. size_lia. }
      destruct (IH (rest ++ cs)%list files (record_call a (EvGetContents p)) Hq)
        as (r & a' & E & A & S1 & S2).
      exists r, a'. conjs; auto.
      * eapply after_remote_calls_trans; [|exact A]. now auto with remote.
      * intros H. apply S2. rewrite forallb_app.
        cbn [forallb listable] in H. rewrite X in H. cbn [orb] in H.
        apply andb_true_iff in H. destruct H as [H1 H2]. now rewrite H1, H2.
    + eexists; eexists; split; [reflexivity|]. conjs; auto with remote.
      cbn [forallb listable]. rewrite X. discriminate.
Qed.

Lemma save_cache_spec (w : world) (a : analyzer) :
  exists a', _save_cache w a = (Ok tt, a') /\
    cache a' = cache a /\ calls a' = calls a /\
    disk a' = if disk_writable w then Valid (cache a) else disk a.
Proof.
  unfold _save_cache. eexists; split; [reflexivity|].
  now destruct (disk_writable w).
Qed.

(** What the fetch leaves behind. *)
Lemma fetch_repo_files_spec (w : world) (target : string) (excl : list string)
    (now : Z) (a : analyzer) :
  exists r a',
    fetch_repo_files w target excl now a = (r, a') /\
    List.length (calls a) < List.length (calls a') /\
    ((r = Raise GithubException /\ after_remote_calls a a') \/
     (exists files,
        r = Ok (JArr (map JStr files)) /\
        cache a' =
          setdefault_set
            (setdefault_set (cache a) "files" "cache_time" (JNum now))
            "files" (files_cache_key target excl) (JArr (map JStr files)) /\
        disk a' = if disk_writable w then Valid (cache a') else disk a)) /\
    (repo a || get_repo_ok w = true ->
     forall cs, get_contents w target = Some cs ->
       forallb (listable excl) cs = true ->
       exists v, r = Ok v).
Proof.
  unfold fetch_repo_files, bind, remote_get_contents.
  destruct (ensure_repo_spec w a)
    as (r0 & a0 & E0 & A0 & [-> | ->] & _ & Hrepo & Hnew & Hok); rewrite E0.
  - assert (L0 : List.length (calls a) <= List.length (calls a0)).
    { destruct A0 as (_ & _ & n & -> & _). rewrite length_app. lia. }
    destruct (get_contents w target) as [cs|] eqn:GC.
    + destruct (walk_contents_fuel (S (forest_size cs)) excl cs []
                  (record_call a0 (EvGetContents target)) (Nat.lt_succ_diag_r _))
        as (r & a1 & E1 & A1 & S1 & S2).
      rewrite E1.
      assert (L1 : List.length (calls a) < List.length (calls a1)).
      { destruct A1 as (_ & _ & n & -> & _). rewrite length_app. simpl. lia. }
      destruct S1 as [-> | [files ->]].
      * exists (Raise GithubException), a1. conjs; auto.
        -- left. split; [reflexivity|].
           eapply after_remote_calls_trans; [exact A0|].
           eapply after_remote_calls_trans; [|exact A1]. now auto with remote.
        -- intros _ cs' [= <-] H. destruct (S2 H) as [f Hf]. discriminate.
      * simpl. eexists; eexists; split; [reflexivity|].
        destruct A0 as (C0 & D0 & _), A1 as (C1 & D1 & _). simpl in C1, D1.
        conjs.
        -- now destruct (disk_writable w).
        -- right. exists files. split; [reflexivity|].
           destruct (disk_writable w); simpl; rewrite ?C1, ?C0, ?D1, ?D0; auto.
        -- intros _ cs' _ _. eauto.
    + eexists; eexists; split; [reflexivity|]. conjs.
      * simpl. lia.
      * left. split; [reflexivity|].
        eapply after_remote_calls_trans; [exact A0|]. now auto with remote.
      * intros _ cs [=].
  - exists (Raise GithubException), a0. conjs; auto.
    + destruct (repo a) eqn:R.
      * destruct (Hrepo eq_refl) as [H _]. discriminate.
      * rewrite (Hnew eq_refl). simpl. lia.
    + intros H. apply Hok in H. discriminate.
Qed.

(** C4: the listing lookup answers from the cache while the key is there
    and the namespace clock is younger than 259200 seconds, without a call
    to the remote side or a change of state; otherwise it runs the fetch,
    and a fetch that returns has stored its result under the key, set the
    clock to now and written the document to the cache file. *)
Theorem listing_lookup_ttl (w : world) (target : string) (excl : list string)
    (a : analyzer) :
  let key := files_cache_key target excl in
  let ns := Dict.get_default (cache a) "files" [] in
  let now := time_now w in
  _cache_ttl = 259200%Z /\
  (forall v ct,
     Dict.get ns key = Some v ->
     Dict.get ns "cache_time" = Some (JNum ct) ->
     (now - ct < _cache_ttl)%Z ->
     get_repo_files_recursively w target excl a = (Ok v, a)) /\
  (Dict.get ns key = None \/
   (exists ct, Dict.get ns "cache_time" = Some (JNum ct) /\
               (_cache_ttl <= now - ct)%Z) ->
   exists r a',
     get_repo_files_recursively w target excl a = (r, a') /\
     fetch_repo_files w target excl now a = (r, a') /\
     List.length (calls a) < List.length (calls a') /\
     (forall v, r = Ok v ->
        Dict.get (Dict.get_default (cache a') "files" []) key = Some v /\
        Dict.get (Dict.get_default (cache a') "files" []) "cache_time"
        = Some (JNum now) /\
        disk a' = if disk_writable w then Valid (cache a') else disk a) /\
     (repo a || get_repo_ok w = true ->
      forall cs, get_contents w target = Some cs ->
        forallb (listable excl) cs = true ->
        exists v, r = Ok v)) /\
  (forall v,
     Dict.get ns key = Some v ->
     (Dict.get ns "cache_time" = Some (JNum (now - _cache_ttl + 1)) ->
      get_repo_files_recursively w target excl a = (Ok v, a)) /\
     (Dict.get ns "cache_time" = Some (JNum (now - _cache_ttl - 1)) ->
      get_repo_files_recursively w target excl a
      = fetch_repo_files w target excl now a)).
Proof.
  intros key ns now.
  assert (Hit : forall v ct,
             Dict.get ns key = Some v ->
             Dict.get ns "cache_time" = Some (JNum ct) ->
             (now - ct < _cache_ttl)%Z ->
             get_repo_files_recursively w target excl a = (Ok v, a)).
  { intros v ct Hk Hc Hlt. unfold get_repo_files_recursively.
    fold key ns now. rewrite Hk, Hc. simpl num_of. cbv iota.
    apply Z.ltb_lt in Hlt. now rewrite Hlt. }
  assert (Miss : Dict.get ns key = None \/
                 (exists ct, Dict.get ns "cache_time" = Some (JNum ct) /\
                             (_cache_ttl <= now - ct)%Z) ->
                 get_repo_files_recursively w target excl a
                 = fetch_repo_files w target excl now a).
  { intros H. unfold get_repo_files_recursively. fold key ns now.
    destruct (Dict.get ns key) as [v|] eqn:Hk; [|reflexivity].
    destruct H as [H | (ct & Hc & Hge)]; [discriminate|].
    rewrite Hc. simpl num_of. cbv iota.
    apply Z.ltb_ge in Hge. now rewrite Hge. }
  split; [reflexivity|]. split; [exact Hit|]. split.
  - intros H. rewrite (Miss H).
    destruct (fetch_repo_files_spec w target excl now a)
      as (r & a' & E & L & S1 & S2).
    exists r, a'. conjs; auto.
    intros v ->. destruct S1 as [[S1 _] | (files & [= ->] & C & D)]; [discriminate|].
    rewrite C. fold key. conjs; auto.
    + apply get_setdefault_same.
    + rewrite get_setdefault_other by apply files_cache_key_not_cache_time.
      apply get_setdefault_same.
    + rewrite D. now rewrite C.
  - intros v Hk. split; intros Hc.
    + apply (Hit v _ Hk Hc). lia.
    + apply Miss. right. eexists. split; [exact Hc|]. lia.
Qed.

(** C10: the cache-hit path reads [cache_time] by plain indexing.  Under
    the document invariant the lookup raises no key error; a cache file
    whose [files] namespace has the key but no [cache_time] is loaded as it
    is and makes the lookup, and with it the whole run, fail with a key
    error, with no fetch. *)
Theorem listing_lookup_cache_time_access (w : world) (target : string)
    (excl : list string) :
  (forall a, has_cache_time (cache a) ->
     forall k a', get_repo_files_recursively w target excl a
                  <> (Raise (KeyError k), a')) /\
  (forall doc ns v,
     Dict.get doc "files" = Some ns ->
     Dict.get ns (files_cache_key target excl) = Some v ->
     Dict.get ns "cache_time" = None ->
     cache (__init__ (Valid doc)) = doc /\
     get_repo_files_recursively w target excl (__init__ (Valid doc))
     = (Raise (KeyError "cache_time"), __init__ (Valid doc))) /\
  (forall doc ns v,
     Dict.get doc "files" = Some ns ->
     Dict.get ns (files_cache_key "docs/" ["docs/translations"]) = Some v ->
     Dict.get ns "cache_time" = None ->
     main w (__init__ (Valid doc)) = (Raise (KeyError "cache_time"), __init__ (Valid doc)) /\
     run_status w (Valid doc) = 1%Z).
Proof.
  assert (Broken : forall target excl doc ns v,
             Dict.get doc "files" = Some ns ->
             Dict.get ns (files_cache_key target excl) = Some v ->
             Dict.get ns "cache_time" = None ->
             get_repo_files_recursively w target excl (__init__ (Valid doc))
             = (Raise (KeyError "cache_time"), __init__ (Valid doc))).
  { intros t e doc ns v Hf Hk Hc. unfold get_repo_files_recursively.
    simpl cache. unfold Dict.get_default. now rewrite Hf, Hk, Hc. }
  conjs.
  - intros a Inv k a' H.
    assert (F : forall r a1, fetch_repo_files w target excl (time_now w) a = (r, a1) ->
                             r <> Raise (KeyError k)).
    { intros r a1 E.
      destruct (fetch_repo_files_spec w target excl (time_now w) a)
        as (r' & a2 & E' & _ & [[-> _] | (fs & -> & _)] & _);
        rewrite E in E'; injection E' as -> _; discriminate. }
    unfold get_repo_files_recursively in H.
    destruct (Dict.get (Dict.get_default (cache a) "files" [])
                (files_cache_key target excl)) as [v|] eqn:Hk;
      [|now apply F in H].
    destruct (Dict.get (Dict.get_default (cache a) "files" []) "cache_time")
      as [ct|] eqn:Hc.
    + destruct (num_of ct) as [z|e] eqn:N.
      * destruct (time_now w - z <? _cache_ttl)%Z; [discriminate|].
        now apply F in H.
      * destruct ct; simpl in N; try discriminate; injection N as <-;
          discriminate.
    + unfold Dict.get_default in Hk, Hc.
      destruct (Dict.get (cache a) "files") as [ns|] eqn:Hf; [|discriminate].
      apply Inv in Hf. unfold Dict.mem in Hf. now rewrite Hc in Hf.
  - intros doc ns v Hf Hk Hc. split; [reflexivity | eauto].
  - intros doc ns v Hf Hk Hc.
    assert (M : main w (__init__ (Valid doc))
                = (Raise (KeyError "cache_time"), __init__ (Valid doc))).
    { unfold main, check_collection, bind.
      now rewrite (Broken _ _ _ _ _ Hf Hk Hc). }
    split; [exact M|]. unfold run_status. now rewrite M.
Qed.

Lemma listing_lookup_cache_time_access_witness :
  get_repo_files_recursively Sample.w "docs/" ["docs/translations"]
    (__init__ (Valid Sample.broken_doc))
  = (Raise (KeyError "cache_time"), __init__ (Valid Sample.broken_doc)).
Proof.
  eapply (proj1 (proj2 (listing_lookup_cache_time_access Sample.w "docs/"
                          ["docs/translations"]))); reflexivity.
Defined.

(** ** Collection audit *)

Lemma collection_loop_filter (w : world) (proj : string) (paths acc : list string) :
  collection_loop w proj (map JStr paths) acc
  = Ok (acc ++ filter (uncollected w proj) paths)%list.
Proof.
  revert acc. induction paths as [|u paths IH]; intros acc; simpl.
  - now rewrite app_nil_r.
  - destruct (uncollected w proj u); rewrite IH; [|reflexivity].
    now rewrite <- app_assoc.
Qed.

Lemma uncollected_iff (w : world) (proj u : string) :
  uncollected w proj u = true <->
  isfile w (PyStr.path_join proj (map_file_path u false)) = false /\
  (forall ext, In ext [".drawio"; ".patch"; ".sh"; ".py"] ->
     PyStr.endswith u ext = false).
Proof.
  unfold uncollected, PyStr.endswith_any, no_need_to_collect.
  rewrite andb_true_iff, !negb_true_iff. split; intros [H1 H2]; split; trivial.
  - intros ext Hin.
    destruct (PyStr.endswith u ext) eqn:E; [|reflexivity].
    assert (X : existsb (PyStr.endswith u) [".drawio"; ".patch"; ".sh"; ".py"] = true)
      by (apply existsb_exists; eauto).
    congruence.
  - destruct (existsb (PyStr.endswith u) [".drawio"; ".patch"; ".sh"; ".py"]) eqn:E;
      [|reflexivity].
    apply existsb_exists in E. destruct E as (ext & Hin & He).
    rewrite (H2 ext Hin) in He. discriminate.
Qed.

(** C3: the audit returns the upstream listing filtered, in listing order,
    by "no local file at the mapped path and no suffix from the allow-list". *)
Theorem collection_audit_spec (w : world) (proj : string) (a a' : analyzer)
    (paths : list string) :
  get_repo_files_recursively w "docs/" ["docs/translations"] a
  = (Ok (JArr (map JStr paths)), a') ->
  check_collection w proj a = (Ok (filter (uncollected w proj) paths), a') /\
  (forall u,
     In u (filter (uncollected w proj) paths) <->
     In u paths /\
     isfile w (PyStr.path_join proj (map_file_path u false)) = false /\
     (forall ext, In ext [".drawio"; ".patch"; ".sh"; ".py"] ->
        PyStr.endswith u ext = false)).
Proof.
  intros H. split.
  - unfold check_collection, bind. rewrite H. simpl py_iter. unfold rbind.
    now rewrite collection_loop_filter.
  - intros u. rewrite filter_In, uncollected_iff. tauto.
Qed.

Lemma collection_audit_spec_witness :
  get_repo_files_recursively Sample.w "docs/" ["docs/translations"] (__init__ NoFile)
  = (Ok (JArr (map JStr ["docs/setup.md"; "docs/usage.md"; "docs/linux/setup.md";
                         "docs/linux/run.sh"])),
     snd (get_repo_files_recursively Sample.w "docs/" ["docs/translations"]
            (__init__ NoFile))) /\
  fst (check_collection Sample.w "." (__init__ NoFile))
  = Ok ["docs/usage.md"; "docs/linux/setup.md"].
Proof.
  split; [reflexivity|].
  now rewrite (proj1 (collection_audit_spec Sample.w "." (__init__ NoFile) _
                 ["docs/setup.md"; "docs/usage.md"; "docs/linux/setup.md";
                  "docs/linux/run.sh"] eq_refl)).
Defined.

(** ** Commit records in the cache *)

Lemma collected_date_of_cases (w : world) (h : option yaml) :
  (exists d, collected_date_of w h = Ok d) \/
  collected_date_of w h = Raise (SystemExit 1).
Proof.
  unfold collected_date_of.
  destruct h as [[fields|]|]; auto.
  destruct (Dict.get fields "collected_date") as [s|]; auto.
  destruct (strptime w s); eauto.
Qed.

Lemma refresh_commit_spec (w : world) (p : string) (b : batch) :
  exists r b',
    refresh_commit w p b = (r, b') /\
    changed b' = true /\
    after_remote_calls (record_call (self b) (EvFrontMatter p)) (self b') /\
    match collected_date_of w (front_matter w p) with
    | Ok _ =>
        r = Ok tt /\
        exists c cd l ld,
          commits b' = Dict.set (commits b) p (commit_record c cd l ld)
    | Raise _ =>
        r = Raise (SystemExit 1) /\
        self b' = record_call (self b) (EvFrontMatter p) /\
        commits b' = Dict.set (commits b) p empty_record
    end.
Proof.
  unfold refresh_commit, bindB, set_changed, set_commit, lift_self, lift_result,
    extract_frontmatter.
  cbn [self commits changed].
  destruct (collected_date_of_cases w (front_matter w p)) as [[d E] | E]; rewrite E.
  2: { eexists; eexists; split; [reflexivity|]. cbn [self commits changed].
       conjs; auto with remote. }
  destruct (commit_lookup_returns w (map_file_path p true) d
              (record_call (self b) (EvFrontMatter p)))
    as ([c cd] & a1 & E1 & A1).
  rewrite E1. cbn [self commits changed fst snd].
  unfold set_commit_field at 1. cbn [self commits changed].
  rewrite get_set_same. cbn [self commits changed].
  destruct (commit_lookup_returns w (map_file_path p true) (datetime_now w) a1)
    as ([l ld] & a2 & E2 & A2).
  rewrite E2. unfold set_commit_field. cbn [self commits changed fst snd].
  rewrite get_set_same.
  eexists; eexists; split; [reflexivity|]. cbn [self commits changed].
  conjs; auto.
  - eapply after_remote_calls_trans; eassumption.
  - exists c, cd, l, ld. now rewrite !set_set.
Qed.

(** One turn of the batch loop: a path with a live entry is passed over;
    any other path gets its front matter read, and then either the run
    ends in [sys.exit(1)] or the entry is replaced by a full record. *)
Lemma derive_commit_spec (w : world) (cached_time : json) (p : string) (b : batch) :
  exists r b',
    derive_commit w cached_time p b = (r, b') /\
    match alive_test w cached_time (commits b) p with
    | Raise e => r = Raise e /\ b' = b
    | Ok true => r = Ok tt /\ b' = b
    | Ok false =>
        changed b' = true /\
        after_remote_calls (record_call (self b) (EvFrontMatter p)) (self b') /\
        match collected_date_of w (front_matter w p) with
        | Ok _ =>
            r = Ok tt /\
            exists c cd l ld,
              commits b' = Dict.set (commits b) p (commit_record c cd l ld)
        | Raise _ =>
            r = Raise (SystemExit 1) /\
            self b' = record_call (self b) (EvFrontMatter p) /\
            commits b' = Dict.set (commits b) p empty_record
        end
    end.
Proof.
  unfold derive_commit, bindB, cache_alive, alive_test.
  destruct (Dict.mem (commits b) p) eqn:M.
  - destruct (num_of cached_time) as [ct|e].
    + destruct (time_now w - ct <? _cache_ttl)%Z.
      * now exists (Ok tt), b.
      * apply refresh_commit_spec.
    + now exists (Raise e), b.
  - apply refresh_commit_spec.
Qed.

Lemma files_read_app (e1 e2 : list event) :
  files_read (e1 ++ e2) = (files_read e2 ++ files_read e1)%list.
Proof.
  induction e1 as [|e e1 IH]; simpl.
  - now rewrite app_nil_r.
  - destruct e; trivial. now rewrite IH, app_assoc.
Qed.

Lemma files_read_remote (evs : list event) :
  forallb is_remote evs = true -> files_read evs = [].
Proof.
  induction evs as [|e evs IH]; [reflexivity|]. simpl.
  destruct e; simpl; try exact IH. discriminate.
Qed.

Lemma alive_test_set_other (w : world) (ct : json) (d : Dict.t json)
    (p k : string) (v : json) :
  k <> p -> alive_test w ct (Dict.set d p v) k = alive_test w ct d k.
Proof. intros N. unfold alive_test. now rewrite mem_set_other. Qed.

Lemma existsb_eqb_In (k : string) (l : list string) :
  existsb (String.eqb k) l = true <-> In k l.
Proof.
  rewrite existsb_exists. split.
  - intros (x & Hin & E). apply String.eqb_eq in E. now subst.
  - intros H. exists k. split; [exact H | apply String.eqb_refl].
Qed.

(** The batch loop when it runs to its end. *)
Lemma derive_commits_ok_spec (w : world) (cached_time : json) (l : list string) :
  forall b b',
    derive_commits w cached_time l b = (Ok tt, b') ->
    cache (self b') = cache (self b) /\
    disk (self b') = disk (self b) /\
    (forall k, Dict.mem (commits b') k
               = Dict.mem (commits b) k || existsb (String.eqb k) l) /\
    Dict.keys (commits b') = add_keys (Dict.keys (commits b)) l /\
    exists new,
      calls (self b') = (new ++ calls (self b))%list /\
      (forall k, In k (files_read new) <->
                 In k l /\ alive_test w cached_time (commits b) k = Ok false) /\
      (forall k, ~ In k (files_read new) ->
                 Dict.get (commits b') k = Dict.get (commits b) k) /\
      (files_read new = [] -> b' = b) /\
      (files_read new <> [] -> changed b' = true).
Proof.
  induction l as [|p l IH]; intros b b' H.
  - injection H as <-. conjs; auto.
    + intros k. now rewrite orb_false_r.
    + exists []. conjs; auto; try tauto. intros k. simpl. tauto.
  - cbn [derive_commits] in H. unfold bindB in H.
    destruct (derive_commit_spec w cached_time p b) as (r1 & b1 & E1 & S1).
    rewrite E1 in H.
    destruct (alive_test w cached_time (commits b) p) as [[|]|e] eqn:AT.
    + (* live entry: passed over *)
      destruct S1 as [-> ->].
      destruct (IH _ _ H) as (C & D & M & K & new & N & R & G & Z0 & Z1).
      assert (Mp : Dict.mem (commits b) p = true).
      { unfold alive_test in AT. now destruct (Dict.mem (commits b) p). }
      conjs; auto.
      * intros k. rewrite M. cbn [existsb].
        destruct (String.eqb k p) eqn:Ekp; [|reflexivity].
        apply String.eqb_eq in Ekp. subst k. now rewrite Mp.
      * rewrite K. cbn [add_keys]. now rewrite <- mem_keys, Mp.
      * exists new. conjs; auto.
        intros k. rewrite R. cbn [In]. split; [tauto|].
        intros [[<- | Hin] Hk]; [congruence | tauto].
    + (* re-derived *)
      destruct S1 as (Ch & A1 & S1).
      destruct (collected_date_of w (front_matter w p));
        [|destruct S1 as [-> _]; discriminate].
      destruct S1 as (-> & c & cd & sl & ld & Cm).
      destruct (IH _ _ H) as (C & D & M & K & new & N & R & G & Z0 & Z1).
      destruct A1 as (C1 & D1 & n & N1 & F1). simpl in C1, D1, N1.
      conjs; try congruence.
      * intros k. rewrite M, Cm. cbn [existsb].
        destruct (String.eqb k p) eqn:Ekp.
        -- apply String.eqb_eq in Ekp. subst k.
           now rewrite mem_set_same, orb_true_r.
        -- apply String.eqb_neq in Ekp. rewrite mem_set_other by exact Ekp.
           reflexivity.
      * rewrite K, Cm, keys_set. cbn [add_keys]. rewrite <- mem_keys.
        reflexivity.
      * exists (new ++ n ++ [EvFrontMatter p])%list.
        assert (FR : files_read (new ++ n ++ [EvFrontMatter p])
                     = (p :: files_read new)%list).
        { rewrite !files_read_app, (files_read_remote _ F1). reflexivity. }
        rewrite FR. conjs.
        -- rewrite N, N1, <- !app_assoc. reflexivity.
        -- intros k. cbn [In]. rewrite R, Cm. split.
           ++ intros [<- | [Hin Hk]]; [tauto|].
              destruct (string_dec k p) as [-> | Nkp]; [tauto|].
              rewrite alive_test_set_other in Hk by exact Nkp. tauto.
           ++ intros [[<- | Hin] Hk]; [tauto|].
              destruct (string_dec p k) as [-> | Nkp]; [tauto|].
              right. split; [exact Hin|].
              rewrite alive_test_set_other by congruence. exact Hk.
        -- intros k Hk. cbn [In] in Hk.
           rewrite G by tauto. rewrite Cm.
           apply get_set_other. intros ->. tauto.
        -- discriminate.
        -- intros _. destruct new as [|e0 new0] eqn:En.
           ++ assert (b' = b1) by (apply Z0; reflexivity). now subst b'.
           ++ destruct (files_read (e0 :: new0)) eqn:Ef.
              ** assert (b' = b1) by (apply Z0; reflexivity). now subst b'.
              ** apply Z1. discriminate.
    + destruct S1 as [-> _]. discriminate.
Qed.

Lemma alive_test_false_iff (w : world) (cached_time : json) (ct : Z)
    (d : Dict.t json) (k : string) :
  num_of cached_time = Ok ct ->
  (alive_test w cached_time d k = Ok false <->
   Dict.mem d k = false \/ (_cache_ttl <= time_now w - ct)%Z).
Proof.
  intros N. unfold alive_test. rewrite N.
  destruct (Dict.mem d k); [|tauto].
  destruct (time_now w - ct <? _cache_ttl)%Z eqn:E.
  - apply Z.ltb_lt in E. split; [discriminate|]. intros [H|H]; [discriminate|lia].
  - apply Z.ltb_ge in E. tauto.
Qed.

(** Nothing is re-derived while every requested key is there and the
    clock is young. *)
Lemma derive_commits_all_alive (w : world) (cached_time : json) (ct : Z)
    (l : list string) (b : batch) :
  num_of cached_time = Ok ct ->
  (time_now w - ct < _cache_ttl)%Z ->
  (forall k, In k l -> Dict.mem (commits b) k = true) ->
  derive_commits w cached_time l b = (Ok tt, b).
Proof.
  intros N Hlt. induction l as [|p l IH]; intros Hmem; [reflexivity|].
  cbn [derive_commits]. unfold bindB, derive_commit, bindB, cache_alive.
  rewrite (Hmem p (or_introl eq_refl)), N.
  apply Z.ltb_lt in Hlt. rewrite Hlt. cbn.
  apply IH. intros k Hk. apply Hmem. now right.
Qed.

(** C5: in a batch that returns, a requested key is re-derived exactly
    when it is absent or the shared clock is at least the TTL old; all
    other entries keep their payload; if something was re-derived the one
    clock of the namespace is set to now, the namespace is in the document
    and the document is written, after which every entry of the namespace
    is served from the cache for the next TTL window; if nothing was
    re-derived nothing changes. *)
Theorem batch_refresh_shared_clock (w : world) (l : list string) (a a' : analyzer)
    (commits' : Dict.t json) (ct : Z) :
  let commits0 := Dict.get_default (cache a) "commits" [] in
  num_of (Dict.get_default commits0 "cache_time" (JNum 0)) = Ok ct ->
  get_files_commits_and_dates w l a = (Ok commits', a') ->
  exists new,
    calls a' = (new ++ calls a)%list /\
    (forall k, In k (files_read new) <->
               In k l /\
               (Dict.mem commits0 k = false \/ (_cache_ttl <= time_now w - ct)%Z)) /\
    (forall k, k <> "cache_time" -> ~ In k (files_read new) ->
               Dict.get commits' k = Dict.get commits0 k) /\
    (files_read new <> [] ->
     Dict.get commits' "cache_time" = Some (JNum (time_now w)) /\
     Dict.get (cache a') "commits" = Some commits' /\
     disk a' = (if disk_writable w then Valid (cache a') else disk a) /\
     (forall w2 l2,
        (time_now w2 - time_now w < _cache_ttl)%Z ->
        (forall k, In k l2 -> Dict.mem commits' k = true) ->
        get_files_commits_and_dates w2 l2 a' = (Ok commits', a'))) /\
    (files_read new = [] ->
     commits' = commits0 /\ a' = a /\ disk a' = disk a).
Proof.
  intros commits0 N H.
  unfold get_files_commits_and_dates in H. fold commits0 in H.
  set (cached_time := Dict.get_default commits0 "cache_time" (JNum 0)) in *.
  destruct (derive_commits w cached_time l
              {| self := a; commits := commits0; changed := false |})
    as [[[]|e] b'] eqn:L; [|discriminate].
  apply derive_commits_ok_spec in L. cbn [self commits changed] in L.
  destruct L as (C & D & M & K & new & Nw & R & G & Z0 & Z1).
  assert (Iff : forall k, In k (files_read new) <->
                In k l /\
                (Dict.mem commits0 k = false \/ (_cache_ttl <= time_now w - ct)%Z)).
  { intros k. rewrite R, (alive_test_false_iff _ _ _ _ _ N). tauto. }
  destruct (changed b') eqn:Ch.
  - destruct (save_cache_spec w
                (with_cache (self b')
                   (Dict.set (cache (self b')) "commits"
                      (Dict.set (commits b') "cache_time" (JNum (time_now w))))))
      as (a2 & Es & Cs & Ls & Ds).
    rewrite Es in H. injection H as <- <-.
    exists new.
    split; [now rewrite Ls|]. split; [exact Iff|].
    split; [intros k Hk Hn; rewrite get_set_other by exact Hk; now apply G|].
    split.
    + intros _. conjs.
      * apply get_set_same.
      * rewrite Cs. apply get_set_same.
      * rewrite Ds, Cs. simpl. now rewrite D.
      * intros w2 l2 Hlt Hmem. unfold get_files_commits_and_dates.
        assert (E : Dict.get_default (cache a2) "commits" []
                    = Dict.set (commits b') "cache_time" (JNum (time_now w))).
        { unfold Dict.get_default. rewrite Cs. simpl cache.
          now rewrite get_set_same. }
        rewrite E.
        rewrite (derive_commits_all_alive w2 _ (time_now w)); trivial.
        unfold Dict.get_default. now rewrite get_set_same.
    + intros E. apply Z0 in E. subst b'. discriminate.
  - injection H as <- <-.
    assert (E : files_read new = []).
    { destruct (files_read new) eqn:F; [reflexivity|].
      assert (X : false = true) by (apply Z1; discriminate). discriminate. }
    assert (B : b' = {| self := a; commits := commits0; changed := false |})
      by auto.
    exists new.
    split; [exact Nw|]. split; [exact Iff|].
    split; [intros k _ Hn; now apply G|].
    split; [intros X; congruence|].
    intros _. now rewrite B.
Qed.

(** ** Fatal front matter *)

Lemma unusable_exits (w : world) (p : string) :
  unusable_front_matter w p <->
  collected_date_of w (front_matter w p) = Raise (SystemExit 1).
Proof.
  unfold unusable_front_matter, collected_date_of.
  destruct (front_matter w p) as [[fields|]|]; try tauto.
  destruct (Dict.get fields "collected_date") as [s|]; try tauto.
  destruct (strptime w s); split; intros H; try discriminate; reflexivity.
Qed.

Lemma usable_date (w : world) (p : string) :
  ~ unusable_front_matter w p ->
  exists d, collected_date_of w (front_matter w p) = Ok d.
Proof.
  intros H. destruct (collected_date_of_cases w (front_matter w p)) as [E | E];
    [exact E|]. apply unusable_exits in E. contradiction.
Qed.

Lemma derive_commits_app (w : world) (cached_time : json) (l1 l2 : list string)
    (b : batch) :
  derive_commits w cached_time (l1 ++ l2) b =
  match derive_commits w cached_time l1 b with
  | (Ok _, b1) => derive_commits w cached_time l2 b1
  | (Raise e, b1) => (Raise e, b1)
  end.
Proof.
  revert b. induction l1 as [|p l1 IH]; intros b; [reflexivity|].
  cbn [app derive_commits]. unfold bindB.
  destruct (derive_commit w cached_time p b) as [[[]|e] b1]; [apply IH|reflexivity].
Qed.

(** The loop gets past every file that is served from the cache or has a
    usable front matter. *)
Lemma derive_commits_passes (w : world) (cached_time : json) (ct : Z)
    (l : list string) :
  num_of cached_time = Ok ct ->
  forall b,
    Forall (fun p => ~ unusable_front_matter w p \/
                     (Dict.mem (commits b) p = true /\
                      (time_now w - ct < _cache_ttl)%Z)) l ->
    exists b', derive_commits w cached_time l b = (Ok tt, b').
Proof.
  intros N. induction l as [|p l IH]; intros b F; [now exists b|].
  inversion F as [|? ? Hp Hl]; subst.
  cbn [derive_commits]. unfold bindB.
  destruct (derive_commit_spec w cached_time p b) as (r1 & b1 & E1 & S1).
  rewrite E1.
  destruct (alive_test w cached_time (commits b) p) as [[|]|e] eqn:AT.
  - destruct S1 as [-> ->]. now apply IH.
  - destruct S1 as (_ & _ & S1).
    assert (U : ~ unusable_front_matter w p).
    { destruct Hp as [U | [Hm Hf]]; [exact U|].
      apply (alive_test_false_iff _ _ _ _ _ N) in AT.
      destruct AT as [X | X]; [congruence | lia]. }
    destruct (usable_date w p U) as [d Ed]. rewrite Ed in S1.
    destruct S1 as (-> & c & cd & sl & ld & Cm).
    apply IH. eapply Forall_impl; [|exact Hl].
    intros q [Hq | [Hm Hf]]; [now left|]. right. split; [|exact Hf].
    rewrite Cm. destruct (string_dec q p) as [-> | Nq].
    + apply mem_set_same.
    + now rewrite mem_set_other.
  - unfold alive_test in AT. rewrite N in AT.
    destruct (Dict.mem (commits b) p); discriminate.
Qed.


(** C8, as the code has it: the first scanned file that is not served
    from a live cache entry and has no usable front matter ends the run
    with status 1.  Reading that file is the last thing done: the files
    after it are not looked at, the cache file is not written and no list
    of stale files is returned. *)
Theorem unusable_front_matter_exits (w : world) (root : string) (a : analyzer)
    (pre suf : list string) (bad : string) (ct : Z) :
  let commits0 := Dict.get_default (cache a) "commits" [] in
  scan_local w root = (pre ++ bad :: suf)%list ->
  num_of (Dict.get_default commits0 "cache_time" (JNum 0)) = Ok ct ->
  Forall (fun p => ~ unusable_front_matter w p \/
                   (Dict.mem commits0 p = true /\
                    (time_now w - ct < _cache_ttl)%Z)) pre ->
  unusable_front_matter w bad ->
  Dict.mem commits0 bad = false \/ (_cache_ttl <= time_now w - ct)%Z ->
  exists a',
    check_update w root a = (Raise (SystemExit 1), a') /\
    exit_status (SystemExit 1) = 1%Z /\
    disk a' = disk a /\
    hd_error (calls a') = Some (EvFrontMatter bad) /\
    (forall p, In p (files_read (calls a')) ->
               In p (pre ++ [bad]) \/ In p (files_read (calls a))) /\
    get_files_commits_and_dates w (pre ++ bad :: suf) a
    = get_files_commits_and_dates w (pre ++ [bad]) a.
Proof.
  intros commits0 Hscan N Hpre Hbad Hmiss.
  set (cached_time := Dict.get_default commits0 "cache_time" (JNum 0)) in *.
  set (b0 := {| self := a; commits := commits0; changed := false |}).
  destruct (derive_commits_passes w cached_time ct pre N b0 Hpre) as [b1 L1].
  pose proof (derive_commits_ok_spec _ _ _ _ _ L1) as
    (C1 & D1 & M1 & _ & new & Nw & R1 & _).
  unfold b0 in C1, D1, M1, Nw, R1. cbn [self commits] in C1, D1, M1, Nw, R1.
  assert (AT : alive_test w cached_time (commits b1) bad = Ok false).
  { apply (alive_test_false_iff _ _ _ _ _ N).
    destruct Hmiss as [Hm | He]; [left | now right].
    rewrite M1, Hm. cbn [orb].
    destruct (existsb (String.eqb bad) pre) eqn:X; [|reflexivity].
    apply existsb_eqb_In in X.
    rewrite Forall_forall in Hpre. destruct (Hpre bad X) as [U | [Hm' _]];
      [contradiction | congruence]. }
  destruct (derive_commit_spec w cached_time bad b1) as (r2 & b2 & E2 & S2).
  rewrite AT in S2. destruct S2 as (_ & _ & S2).
  apply unusable_exits in Hbad. rewrite Hbad in S2.
  destruct S2 as (-> & Sf & Cm).
  assert (Run : forall rest,
             derive_commits w cached_time (pre ++ bad :: rest) b0
             = (Raise (SystemExit 1), b2)).
  { intros rest. rewrite derive_commits_app, L1. cbn [derive_commits].
    unfold bindB. now rewrite E2. }
  assert (G : forall rest,
             get_files_commits_and_dates w (pre ++ bad :: rest) a
             = (Raise (SystemExit 1),
                write_through (Dict.mem (cache a) "commits") b2)).
  { intros rest. unfold get_files_commits_and_dates.
    fold commits0 cached_time b0. now rewrite Run. }
  exists (write_through (Dict.mem (cache a) "commits") b2).
  assert (Cl : calls (write_through (Dict.mem (cache a) "commits") b2)
               = (EvFrontMatter bad :: new ++ calls a)%list).
  { unfold write_through. destruct (Dict.mem (cache a) "commits"); simpl;
      rewrite Sf; simpl; now rewrite Nw. }
  conjs.
  - unfold check_update, bind. now rewrite Hscan, G.
  - reflexivity.
  - unfold write_through. destruct (Dict.mem (cache a) "commits"); simpl;
      rewrite Sf; simpl; exact D1.
  - now rewrite Cl.
  - intros p. rewrite Cl.
    change (EvFrontMatter bad :: new ++ calls a)%list
      with ([EvFrontMatter bad] ++ new ++ calls a)%list.
    rewrite !files_read_app, !in_app_iff. simpl.
    rewrite R1. tauto.
  - now rewrite !G.
Qed.

(** ** Staleness check *)

Lemma stale_loop_spec (items : list (string * json)) :
  forall acc out,
    stale_loop items acc = Ok out -> out = (acc ++ stale_keys items)%list.
Proof.
  induction items as [|[k info] items IH]; intros acc out H.
  - injection H as <-. unfold stale_keys. simpl. now rewrite app_nil_r.
  - cbn [stale_loop] in H. unfold stale_keys. cbn [filter fst snd].
    destruct (String.eqb k "cache_time"); cbn [negb andb].
    + now apply IH.
    + destruct (is_stale info) as [[|]|e]; try discriminate.
      * apply IH in H. rewrite H, <- app_assoc. reflexivity.
      * now apply IH.
Qed.

Lemma in_stale_keys (d : Dict.t json) (p : string) :
  In p (stale_keys d) <->
  exists info, In (p, info) d /\ p <> "cache_time" /\ is_stale info = Ok true.
Proof.
  unfold stale_keys. rewrite in_map_iff. split.
  - intros ([k info] & <- & Hin). apply filter_In in Hin. destruct Hin as [Hin Hf].
    cbn [fst snd] in *. apply andb_true_iff in Hf. destruct Hf as [Hk Hs].
    exists info. conjs; trivial.
    + apply negb_true_iff, String.eqb_neq in Hk. exact Hk.
    + now destruct (is_stale info) as [[|]|].
  - intros (info & Hin & Hk & Hs). exists (p, info). split; [reflexivity|].
    apply filter_In. split; [exact Hin|]. cbn [fst snd].
    apply String.eqb_neq in Hk. now rewrite Hk, Hs.
Qed.

Lemma In_mem (d : Dict.t json) (k : string) (v : json) :
  In (k, v) d -> Dict.mem d k = true.
Proof.
  rewrite mem_keys. intros H. apply existsb_eqb_In.
  unfold Dict.keys. apply in_map_iff. now exists (k, v).
Qed.

(** With unique keys, the reported keys are the keys filtered. *)
Lemma stale_keys_filter (d : Dict.t json) :
  NoDup (Dict.keys d) ->
  stale_keys d
  = filter (fun k => not_cache_time k && stale_at d k) (Dict.keys d).
Proof.
  unfold stale_keys, stale_at, not_cache_time.
  induction d as [|[k info] d IH]; intros ND; [reflexivity|].
  inversion ND as [|? ? Hk ND']; subst.
  cbn [Dict.keys map filter fst snd Dict.get]. rewrite String.eqb_refl.
  assert (T : filter (fun k0 =>
                 negb (String.eqb k0 "cache_time") &&
                 match (if String.eqb k k0 then Some info else Dict.get d k0) with
                 | Some info0 =>
                     match is_stale info0 with Ok true => true | _ => false end
                 | None => false
                 end) (Dict.keys d)
              = filter (fun k0 =>
                 negb (String.eqb k0 "cache_time") &&
                 match Dict.get d k0 with
                 | Some info0 =>
                     match is_stale info0 with Ok true => true | _ => false end
                 | None => false
                 end) (Dict.keys d)).
  { apply filter_ext_in. intros k0 Hin.
    destruct (String.eqb k k0) eqn:E; [|reflexivity].
    apply String.eqb_eq in E. subst k0. contradiction. }
  fold (Dict.keys d). rewrite T, <- (IH ND').
  now destruct (negb (String.eqb k "cache_time") &&
                match is_stale info with Ok true => true | _ => false end).
Qed.

Lemma add_keys_fresh (l : list string) :
  forall ks, NoDup (ks ++ l) -> add_keys ks l = (ks ++ l)%list.
Proof.
  induction l as [|k l IH]; intros ks ND; cbn [add_keys].
  - now rewrite app_nil_r.
  - assert (Hk : existsb (String.eqb k) ks = false).
    { destruct (existsb (String.eqb k) ks) eqn:E; [|reflexivity].
      apply existsb_eqb_In in E. apply NoDup_remove_2 in ND.
      exfalso. apply ND, in_or_app. now left. }
    rewrite Hk, IH; rewrite <- app_assoc; [reflexivity | exact ND].
Qed.

(** What a batch that returns hands to the comparator. *)
Lemma batch_returns_namespace (w : world) (l : list string) (a a' : analyzer)
    (commits' : Dict.t json) :
  get_files_commits_and_dates w l a = (Ok commits', a') ->
  exists b',
    derive_commits w
      (Dict.get_default (Dict.get_default (cache a) "commits" []) "cache_time"
         (JNum 0)) l
      {| self := a; commits := Dict.get_default (cache a) "commits" [];
         changed := false |} = (Ok tt, b') /\
    ((changed b' = false /\ commits' = commits b') \/
     (changed b' = true /\
      commits' = Dict.set (commits b') "cache_time" (JNum (time_now w)))).
Proof.
  unfold get_files_commits_and_dates. intros H.
  match type of H with
  | context [derive_commits ?w ?c ?l ?b] =>
      destruct (derive_commits w c l b) as [[[]|e] b'] eqn:L; [|discriminate]
  end.
  exists b'. split; [reflexivity|].
  destruct (changed b').
  - right. split; [reflexivity|].
    destruct (_save_cache w _) in H. now injection H as <- _.
  - left. split; [reflexivity|]. now injection H as <- _.
Qed.

(** C1, as the code has it: the check reports the keys of the commits
    namespace that the batch returns -- entries cached by earlier runs in
    their stored order, then newly scanned paths in scan order, the clock
    entry skipped -- whose record is flagged stale.  Every scanned path is
    such a key; a reported path is scanned or was cached before; and with
    no namespace cached the report is the scanned list filtered. *)
Theorem check_update_reports_namespace (w : world) (root : string)
    (a a' : analyzer) (out : list string) :
  let commits0 := Dict.get_default (cache a) "commits" [] in
  let scanned := scan_local w root in
  check_update w root a = (Ok out, a') ->
  exists commits',
    get_files_commits_and_dates w scanned a = (Ok commits', a') /\
    out = stale_keys commits' /\
    (forall p, In p out <->
               exists info, In (p, info) commits' /\ p <> "cache_time" /\
                            is_stale info = Ok true) /\
    (forall p, In p scanned -> Dict.mem commits' p = true) /\
    (forall p, In p out -> In p scanned \/ Dict.mem commits0 p = true) /\
    filter not_cache_time (Dict.keys commits')
    = filter not_cache_time (add_keys (Dict.keys commits0) scanned) /\
    (commits0 = [] -> NoDup scanned -> ~ In "cache_time" scanned ->
     out = filter (stale_at commits') scanned).
Proof.
  intros commits0 scanned H.
  unfold check_update, bind in H. fold scanned in H.
  destruct (get_files_commits_and_dates w scanned a) as [[commits'|e] a1] eqn:G;
    [|discriminate].
  assert (a1 = a') by (now injection H). subst a1.
  assert (Hout : stale_loop commits' [] = Ok out) by (now injection H).
  apply stale_loop_spec in Hout. cbn [app] in Hout.
  destruct (batch_returns_namespace _ _ _ _ _ G) as (b' & L & Hc).
  fold commits0 in L.
  apply derive_commits_ok_spec in L. cbn [self commits] in L.
  destruct L as (_ & _ & M & K & new & _ & _ & _ & Z0 & Z1).
  assert (Mem : forall p, Dict.mem commits' p = true ->
                          p <> "cache_time" -> Dict.mem (commits b') p = true).
  { intros p Hp Hn. destruct Hc as [[_ ->] | [_ ->]]; [exact Hp|].
    now rewrite mem_set_other in Hp. }
  assert (Keys : filter not_cache_time (Dict.keys commits')
                 = filter not_cache_time (Dict.keys (commits b'))).
  { destruct Hc as [[_ ->] | [_ ->]]; [reflexivity|].
    rewrite keys_set. destruct (Dict.mem (commits b') "cache_time"); [reflexivity|].
    rewrite filter_app. cbn. now rewrite app_nil_r. }
  exists commits'. conjs; trivial.
  - intros p. rewrite Hout. apply in_stale_keys.
  - intros p Hp.
    assert (X : Dict.mem (commits b') p = true).
    { rewrite M. apply orb_true_iff. right. now apply existsb_eqb_In. }
    destruct Hc as [[_ ->] | [_ ->]]; [exact X|].
    destruct (string_dec p "cache_time") as [-> | Np]; [apply mem_set_same|].
    now rewrite mem_set_other.
  - intros p Hp. rewrite Hout in Hp. apply in_stale_keys in Hp.
    destruct Hp as (info & Hin & Hn & _).
    apply In_mem in Hin. apply Mem in Hin; [|exact Hn].
    rewrite M in Hin. apply orb_true_iff in Hin.
    destruct Hin as [Hin | Hin]; [now right | left; now apply existsb_eqb_In].
  - now rewrite Keys, K.
  - intros E0 ND Nct. rewrite E0 in K. cbn [Dict.keys map] in K.
    rewrite (add_keys_fresh scanned [] ND) in K. cbn [app] in K.
    destruct Hc as [[Ch Hc] | [Ch Hc]].
    + (* nothing re-derived: nothing scanned *)
      assert (F : files_read new = []).
      { destruct (files_read new) eqn:F; [reflexivity|].
        assert (X : changed b' = true) by (apply Z1; discriminate). congruence. }
      apply Z0 in F. rewrite F in K, Hc. cbn [commits] in K, Hc.
      rewrite Hout, Hc, <- K, E0. reflexivity.
    + assert (Kc : Dict.keys commits' = (scanned ++ ["cache_time"])%list).
      { rewrite Hc, keys_set, mem_keys, K.
        destruct (existsb (String.eqb "cache_time") scanned) eqn:X; [|reflexivity].
        apply existsb_eqb_In in X. contradiction. }
      rewrite Hout, stale_keys_filter, Kc, filter_app.
      * cbn. rewrite app_nil_r. apply filter_ext_in.
        intros p Hp. unfold not_cache_time.
        destruct (String.eqb p "cache_time") eqn:X; [|reflexivity].
        apply String.eqb_eq in X. subst p. contradiction.
      * rewrite Kc. apply NoDup_app; [exact ND | repeat constructor; tauto |].
        intros x Hx [<- | []]. contradiction.
Qed.

(** ** The sample run *)

Example sample_listing :
  fst (get_repo_files_recursively Sample.w "docs/" ["docs/translations"] (__init__ NoFile))
  = Ok (JArr [JStr "docs/setup.md"; JStr "docs/usage.md";
              JStr "docs/linux/setup.md"; JStr "docs/linux/run.sh"]).
Proof. reflexivity. Qed.

Example sample_files_key : Sample.files_key = "['docs/', ['docs/translations']]".
Proof. reflexivity. Qed.

Example sample_scan :
  scan_local Sample.w "sources/syzkaller"
  = ["sources/syzkaller/README.txt"; "sources/syzkaller/setup.md";
     "sources/syzkaller/linux/setup.md"].
Proof. reflexivity. Qed.

Example sample_clean_update :
  fst (check_update Sample.w_clean "sources/syzkaller" (__init__ NoFile))
  = Ok ["sources/syzkaller/setup.md"].
Proof. vm_compute; reflexivity. Qed.

Example sample_status : run_status Sample.w NoFile = 1%Z.
Proof. vm_compute; reflexivity. Qed.

Example sample_clean_status : run_status Sample.w_clean NoFile = 0%Z.
Proof. vm_compute; reflexivity. Qed.

Lemma check_update_reports_namespace_witness :
  check_update Sample.w_clean "sources/syzkaller" (__init__ NoFile)
  = (Ok ["sources/syzkaller/setup.md"],
     snd (check_update Sample.w_clean "sources/syzkaller" (__init__ NoFile))) /\
  exists commits',
    get_files_commits_and_dates Sample.w_clean
      (scan_local Sample.w_clean "sources/syzkaller") (__init__ NoFile)
    = (Ok commits',
       snd (check_update Sample.w_clean "sources/syzkaller" (__init__ NoFile))) /\
    ["sources/syzkaller/setup.md"] = stale_keys commits'.
Proof.
  assert (H : check_update Sample.w_clean "sources/syzkaller" (__init__ NoFile)
  = (Ok ["sources/syzkaller/setup.md"],
     snd (check_update Sample.w_clean "sources/syzkaller" (__init__ NoFile)))).
  { vm_compute; reflexivity. }
  split; [exact H|].
  destruct (check_update_reports_namespace Sample.w_clean "sources/syzkaller"
              (__init__ NoFile) _ ["sources/syzkaller/setup.md"] H)
    as (commits' & G & O & _).
  exists commits'. split; assumption.
Defined.

(** C1 as stated fails: a path cached by an earlier run and no longer
    among the scanned files is reported. *)
Lemma check_update_reports_unscanned_path :
  fst (check_update Sample.w "sources/syzkaller" (__init__ (Valid Sample.fresh_doc)))
  = Ok ["sources/syzkaller/gone.md"; "sources/syzkaller/setup.md"] /\
  ~ In "sources/syzkaller/gone.md" (scan_local Sample.w "sources/syzkaller").
Proof.
  split; [vm_compute; reflexivity|].
  vm_compute. intros [H | [H | [H | []]]]; discriminate.
Qed.

Lemma stale_iff_sha_differs_witness :
  is_stale (commit_record (JStr "abc123") JNull (JStr "def456") JNull) = Ok true /\
  is_stale (commit_record (JStr "abc123") JNull (JStr "abc123") JNull) = Ok false.
Proof.
  pose proof (stale_iff_sha_differs (Some "abc123") (Some "def456") JNull JNull)
    as (_ & _ & _ & D & E & _).
  split; [apply D; discriminate | apply E].
Defined.

Lemma listing_lookup_ttl_witness :
  get_repo_files_recursively Sample.w "docs/" ["docs/translations"]
    (__init__ (Valid Sample.fresh_doc))
  = (Ok (JArr [JStr "docs/setup.md"; JStr "docs/linux/run.sh"; JStr "docs/usage.md"]),
     __init__ (Valid Sample.fresh_doc)).
Proof.
  apply (proj1 (proj2 (listing_lookup_ttl Sample.w "docs/" ["docs/translations"]
                         (__init__ (Valid Sample.fresh_doc))))
           _ 999900%Z); vm_compute; reflexivity.
Defined.

Lemma batch_refresh_shared_clock_witness :
  let a := __init__ NoFile in
  let l := ["sources/syzkaller/setup.md"] in
  let run := get_files_commits_and_dates Sample.w_clean l a in
  let commits' := match fst run with Ok c => c | Raise _ => [] end in
  num_of (Dict.get_default (Dict.get_default (cache a) "commits" []) "cache_time"
            (JNum 0)) = Ok 0%Z /\
  run = (Ok commits', snd run) /\
  exists new,
    calls (snd run) = (new ++ calls a)%list /\
    (files_read new <> [] ->
     Dict.get commits' "cache_time" = Some (JNum (time_now Sample.w_clean))).
Proof.
  intros a l run commits'.
  assert (N : num_of (Dict.get_default (Dict.get_default (cache a) "commits" [])
                        "cache_time" (JNum 0)) = Ok 0%Z) by reflexivity.
  assert (R : run = (Ok commits', snd run)) by (vm_compute; reflexivity).
  split; [exact N|]. split; [exact R|].
  destruct (batch_refresh_shared_clock Sample.w_clean l a (snd run) commits' 0%Z N R)
    as (new & H1 & _ & _ & H4 & _).
  exists new. split; [exact H1|]. intros H. now apply H4.
Defined.

Lemma unusable_front_matter_exits_witness :
  let a := __init__ NoFile in
  scan_local Sample.w "sources/syzkaller"
  = ([] ++ "sources/syzkaller/README.txt" ::
       ["sources/syzkaller/setup.md"; "sources/syzkaller/linux/setup.md"])%list /\
  unusable_front_matter Sample.w "sources/syzkaller/README.txt" /\
  exists a',
    check_update Sample.w "sources/syzkaller" a = (Raise (SystemExit 1), a') /\
    disk a' = disk a /\
    hd_error (calls a') = Some (EvFrontMatter "sources/syzkaller/README.txt").
Proof.
  intros a.
  assert (S : scan_local Sample.w "sources/syzkaller"
              = ([] ++ "sources/syzkaller/README.txt" ::
                   ["sources/syzkaller/setup.md";
                    "sources/syzkaller/linux/setup.md"])%list)
    by (vm_compute; reflexivity).
  assert (U : unusable_front_matter Sample.w "sources/syzkaller/README.txt")
    by (vm_compute; exact I).
  split; [exact S|]. split; [exact U|].
  destruct (unusable_front_matter_exits Sample.w "sources/syzkaller" a [] _
              "sources/syzkaller/README.txt" 0%Z S eq_refl (Forall_nil _) U
              (or_introl eq_refl))
    as (a' & H1 & _ & H3 & H4 & _).
  exists a'. repeat split; assumption.
Defined.

(** C8 as stated fails: a scanned file without front matter that still
    has a live cache entry is not read, and the check returns its list. *)
Lemma unusable_front_matter_served_from_cache :
  In "sources/syzkaller/README.txt" (scan_local Sample.w "sources/syzkaller") /\
  unusable_front_matter Sample.w "sources/syzkaller/README.txt" /\
  fst (check_update Sample.w "sources/syzkaller" (__init__ (Valid Sample.fresh_doc)))
  = Ok ["sources/syzkaller/gone.md"; "sources/syzkaller/setup.md"] /\
  run_status Sample.w (Valid Sample.fresh_doc) = 0%Z.
Proof.
  split; [vm_compute; tauto|]. split; [vm_compute; exact I|].
  split; vm_compute; reflexivity.
Qed.

Lemma commit_lookup_never_raises_witness :
  fst (get_file_commit_and_date Sample.w "docs/none.md" (Some 20250110%Z) (__init__ NoFile))
  = Ok (JNull, JNull).
Proof.
  destruct (commit_lookup_never_raises Sample.w "docs/none.md" 20250110%Z (__init__ NoFile))
    as (r & a' & E & _ & _ & H & _).
  rewrite E. simpl. f_equal. apply H. reflexivity.
Defined.

(** * Further properties *)

(** ** The traversal of the upstream tree *)

Lemma levels_nil (d : nat) (excl : list string) : levels d excl [] = [].
Proof. induction d as [|d IH]; [reflexivity|]. simpl. exact IH. Qed.

Lemma files_of_app (q1 q2 : list rnode) :
  files_of (q1 ++ q2) = (files_of q1 ++ files_of q2)%list.
Proof.
  induction q1 as [|[p|p cs] q1 IH]; simpl; [reflexivity | now rewrite IH | exact IH].
Qed.

(** Working off the entries [q] at the head of the queue leaves the queue
    with their children at the end and the files with theirs appended. *)
Lemma walk_contents_level (excl : list string) (q : list rnode) :
  forall fuel acc files a out a',
    walk_contents fuel excl (q ++ acc) files a = (Ok out, a') ->
    exists fuel' a1,
      fuel = List.length q + fuel' /\
      walk_contents fuel' excl (acc ++ children_of excl q) (files ++ files_of q) a1
      = (Ok out, a').
Proof.
  induction q as [|x q IH]; intros fuel acc files a out a' H.
  - exists fuel, a. simpl. now rewrite !app_nil_r.
  - destruct fuel as [|fuel]; [discriminate|].
    cbn [app walk_contents] in H.
    destruct x as [p|p cs].
    + apply IH in H. destruct H as (f' & a1 & -> & H).
      exists f', a1. split; [reflexivity|].
      cbn [files_of children_of]. now rewrite <- app_assoc in H.
    + cbn [files_of children_of].
      destruct (existsb (String.eqb p) excl).
      * apply IH in H. destruct H as (f' & a1 & -> & H). now exists f', a1.
      * destruct cs as [cs|]; [|discriminate].
        rewrite <- app_assoc in H.
        apply IH in H. destruct H as (f' & a1 & -> & H).
        exists f', a1. split; [reflexivity|]. now rewrite app_assoc.
Qed.

(** A traversal that returns has listed the queue level by level. *)
Lemma walk_contents_levels (fuel : nat) (excl : list string) :
  forall queue files a out a',
    walk_contents fuel excl queue files a = (Ok out, a') ->
    exists d, d <= fuel /\
      forall d2, d <= d2 -> out = (files ++ levels d2 excl queue)%list.
Proof.
  induction fuel as [fuel IH] using lt_wf_ind.
  intros queue files a out a' H.
  destruct queue as [|x queue].
  - destruct fuel; [discriminate|]. injection H as <- _.
    exists 0. split; [lia|]. intros d2 _. now rewrite levels_nil, app_nil_r.
  - rewrite <- (app_nil_r (x :: queue)) in H.
    apply walk_contents_level in H. destruct H as (f' & a1 & Hf & H).
    cbn [app] in H. cbn [List.length] in Hf.
    apply IH in H; [|lia]. destruct H as (d & Hd & H).
    exists (S d). split; [lia|].
    intros [|d2] Hd2; [lia|]. cbn [levels].
    rewrite app_assoc. apply H. lia.
Qed.

Lemma walk_contents_permutation (fuel : nat) (excl : list string) :
  forall queue files a out a',
    walk_contents fuel excl queue files a = (Ok out, a') ->
    Permutation out (files ++ flat_map (reachable_files excl) queue) /\
    (forall p, In (EvGetContents p) (calls a') ->
               In (EvGetContents p) (calls a) \/
               existsb (String.eqb p) excl = false).
Proof.
  induction fuel as [|fuel IH]; intros queue files a out a' H; [discriminate|].
  cbn [walk_contents] in H.
  destruct queue as [|[p|p cs] rest].
  - injection H as <- <-. simpl. rewrite app_nil_r. split; [reflexivity | tauto].
  - apply IH in H. destruct H as [H1 H2]. split; [|exact H2].
    cbn [flat_map reachable_files app]. now rewrite <- app_assoc in H1.
  - cbn [flat_map reachable_files].
    destruct (existsb (String.eqb p) excl) eqn:X.
    + apply IH in H. exact H.
    + destruct cs as [cs|]; [|discriminate].
      apply IH in H. destruct H as [H1 H2]. split.
      * rewrite H1, flat_map_app.
        apply Permutation_app_head, Permutation_app_comm.
      * intros q Hq. apply H2 in Hq. destruct Hq as [[Hq | Hq] | Hq]; auto.
        injection Hq as <-. now right.
Qed.

Lemma walk_contents_ok_listable (fuel : nat) (excl : list string) :
  forall queue files a out a',
    walk_contents fuel excl queue files a = (Ok out, a') ->
    forallb (listable excl) queue = true.
Proof.
  induction fuel as [|fuel IH]; intros queue files a out a' H; [discriminate|].
  cbn [walk_contents] in H.
  destruct queue as [|[p|p cs] rest]; [reflexivity | |].
  - cbn [forallb listable]. apply IH in H. exact H.
  - cbn [forallb listable].
    destruct (existsb (String.eqb p) excl) eqn:X.
    + apply IH in H. exact H.
    + destruct cs as [cs|]; [|discriminate].
      apply IH in H. rewrite forallb_app in H.
      apply andb_true_iff in H. destruct H as [H1 H2]. cbn [orb].
      now rewrite H1, H2.
Qed.

(** A fetch that returns, taken apart. *)
Lemma fetch_repo_files_inv (w : world) (target : string) (excl : list string)
    (now : Z) (a a' : analyzer) (v : json) :
  fetch_repo_files w target excl now a = (Ok v, a') ->
  exists cs files a0 a1,
    repo a || get_repo_ok w = true /\
    get_contents w target = Some cs /\
    (calls a0 = calls a \/ calls a0 = EvGetRepo :: calls a) /\
    walk_contents (S (forest_size cs)) excl cs []
      (record_call a0 (EvGetContents target)) = (Ok files, a1) /\
    v = JArr (map JStr files) /\
    calls a' = calls a1.
Proof.
  unfold fetch_repo_files, bind, remote_get_contents. intros H.
  destruct (ensure_repo_spec w a)
    as (r0 & a0 & E0 & _ & _ & _ & Hrepo & Hnew & _).
  rewrite E0 in H. destruct r0 as [[]|e]; [|discriminate].
  assert (R : repo a || get_repo_ok w = true).
  { unfold ensure_repo in E0. destruct (repo a); [reflexivity|].
    destruct (get_repo_ok w); [reflexivity | discriminate]. }
  destruct (get_contents w target) as [cs|] eqn:GC; [|discriminate].
  destruct (walk_contents (S (forest_size cs)) excl cs []
              (record_call a0 (EvGetContents target))) as [[files|e] a1] eqn:W;
    [|discriminate].
  destruct (save_cache_spec w
              (with_cache a1
                 (setdefault_set
                    (setdefault_set (cache a1) "files" "cache_time" (JNum now))
                    "files" (files_cache_key target excl) (JArr (map JStr files)))))
    as (a2 & Es & _ & Ls & _).
  cbn [ret] in H. unfold ret in H. rewrite Es in H. injection H as <- <-.
  exists cs, files, a0, a1. conjs; trivial.
  destruct (repo a) eqn:Ra.
  - left. destruct (Hrepo eq_refl) as [_ ->]. reflexivity.
  - right. now apply Hnew.
Qed.

(** X1: when the listing is not cached, a lookup that returns gives the
    entries of the upstream tree that are not directories in breadth-first
    order: the files of the listed directory as the client lists them,
    then those of its sub-directories, level by level, leaving out what is
    below an excluded directory. *)
Theorem listing_is_level_order (w : world) (target : string) (excl : list string)
    (a a' : analyzer) (v : json) :
  Dict.get (Dict.get_default (cache a) "files" []) (files_cache_key target excl) = None ->
  get_repo_files_recursively w target excl a = (Ok v, a') ->
  exists cs,
    get_contents w target = Some cs /\
    v = JArr (map JStr (level_order excl cs)).
Proof.
  intros Hk H. unfold get_repo_files_recursively in H. rewrite Hk in H.
  apply fetch_repo_files_inv in H.
  destruct H as (cs & files & a0 & a1 & _ & GC & _ & W & -> & _).
  exists cs. split; [exact GC|].
  apply walk_contents_levels in W. destruct W as (d & Hd & W).
  now rewrite (W (S (forest_size cs)) Hd).
Qed.

Lemma listing_is_level_order_witness :
  Dict.get (Dict.get_default (cache (__init__ NoFile)) "files" [])
    (files_cache_key "docs/" ["docs/translations"]) = None /\
  exists cs,
    get_contents Sample.w "docs/" = Some cs /\
    JArr [JStr "docs/setup.md"; JStr "docs/usage.md"; JStr "docs/linux/setup.md";
          JStr "docs/linux/run.sh"]
    = JArr (map JStr (level_order ["docs/translations"] cs)).
Proof.
  split; [reflexivity|].
  apply (listing_is_level_order Sample.w "docs/" ["docs/translations"]
           (__init__ NoFile)
           (snd (get_repo_files_recursively Sample.w "docs/" ["docs/translations"]
                   (__init__ NoFile))));
    vm_compute; reflexivity.
Defined.

(** X2: such a listing holds every file outside the excluded directories
    once and nothing else (it is a rearrangement of them), and the lookup
    lists no excluded directory. *)
Theorem listing_skips_excluded (w : world) (target : string) (excl : list string)
    (a a' : analyzer) (v : json) :
  Dict.get (Dict.get_default (cache a) "files" []) (files_cache_key target excl) = None ->
  get_repo_files_recursively w target excl a = (Ok v, a') ->
  exists cs out,
    get_contents w target = Some cs /\
    v = JArr (map JStr out) /\
    Permutation out (flat_map (reachable_files excl) cs) /\
    (forall p, In (EvGetContents p) (calls a') ->
               In (EvGetContents p) (calls a) \/ p = target \/
               existsb (String.eqb p) excl = false).
Proof.
  intros Hk H. unfold get_repo_files_recursively in H. rewrite Hk in H.
  apply fetch_repo_files_inv in H.
  destruct H as (cs & files & a0 & a1 & _ & GC & C0 & W & -> & C1).
  exists cs, files. conjs; trivial.
  - apply walk_contents_permutation in W. exact (proj1 W).
  - intros p Hp. rewrite C1 in Hp.
    apply walk_contents_permutation in W. destruct W as [_ W].
    apply W in Hp. destruct Hp as [Hp | Hp]; [|auto].
    cbn [calls record_call] in Hp. destruct Hp as [Hp | Hp].
    + injection Hp as <-. auto.
    + destruct C0 as [C0 | C0]; rewrite C0 in Hp; [auto|].
      destruct Hp as [Hp | Hp]; [discriminate | auto].
Qed.

Lemma listing_skips_excluded_witness :
  Dict.get (Dict.get_default (cache (__init__ NoFile)) "files" [])
    (files_cache_key "docs/" ["docs/translations"]) = None /\
  exists cs out,
    get_contents Sample.w "docs/" = Some cs /\
    Permutation out (flat_map (reachable_files ["docs/translations"]) cs) /\
    ~ In (EvGetContents "docs/translations")
        (calls (snd (get_repo_files_recursively Sample.w "docs/"
                       ["docs/translations"] (__init__ NoFile)))).
Proof.
  split; [reflexivity|].
  assert (R : get_repo_files_recursively Sample.w "docs/" ["docs/translations"]
                (__init__ NoFile)
              = (Ok (JArr [JStr "docs/setup.md"; JStr "docs/usage.md";
                           JStr "docs/linux/setup.md"; JStr "docs/linux/run.sh"]),
                 snd (get_repo_files_recursively Sample.w "docs/"
                        ["docs/translations"] (__init__ NoFile))))
    by (vm_compute; reflexivity).
  destruct (listing_skips_excluded Sample.w "docs/" ["docs/translations"]
              (__init__ NoFile) _ _ eq_refl R)
    as (cs & out & GC & _ & P & C).
  exists cs, out. split; [exact GC|]. split; [exact P|].
  intros Hin. apply C in Hin. destruct Hin as [[] | [Hin | Hin]]; discriminate.
Defined.

(** ** Failure and reuse of the listing lookup *)

(** X3: a listing lookup that raises has stored nothing: the cache in
    memory and the cache file are as before; what it raises is the key
    error for a missing [cache_time], a type error for a clock that is no
    number, or the failure of the remote client. *)
Theorem listing_failure_stores_nothing (w : world) (target : string)
    (excl : list string) (a a' : analyzer) (e : exn) :
  get_repo_files_recursively w target excl a = (Raise e, a') ->
  cache a' = cache a /\ disk a' = disk a /\
  (e = KeyError "cache_time" \/ e = TypeError \/ e = GithubException).
Proof.
  intros H.
  assert (F : fetch_repo_files w target excl (time_now w) a = (Raise e, a') ->
              cache a' = cache a /\ disk a' = disk a /\
              (e = KeyError "cache_time" \/ e = TypeError \/ e = GithubException)).
  { intros E.
    destruct (fetch_repo_files_spec w target excl (time_now w) a)
      as (r & a1 & E1 & _ & [[-> (C & D & _)] | (fs & -> & _)] & _);
      rewrite E in E1; [|discriminate].
    injection E1 as -> ->. auto. }
  unfold get_repo_files_recursively in H.
  destruct (Dict.get (Dict.get_default (cache a) "files" [])
              (files_cache_key target excl)); [|now apply F].
  destruct (Dict.get (Dict.get_default (cache a) "files" []) "cache_time")
    as [ct|].
  - destruct (num_of ct) as [z|e0] eqn:N.
    + destruct (time_now w - z <? _cache_ttl)%Z; [discriminate | now apply F].
    + injection H as <- <-. conjs; trivial.
      destruct ct; simpl in N; try discriminate; injection N as <-; auto.
  - injection H as <- <-. auto.
Qed.

Lemma listing_failure_stores_nothing_witness :
  cache (snd (get_repo_files_recursively Sample.w "docs/missing/" []
                (__init__ (Valid Sample.fresh_doc))))
  = Sample.fresh_doc /\
  disk (snd (get_repo_files_recursively Sample.w "docs/missing/" []
               (__init__ (Valid Sample.fresh_doc))))
  = Valid Sample.fresh_doc.
Proof.
  destruct (listing_failure_stores_nothing Sample.w "docs/missing/" []
              (__init__ (Valid Sample.fresh_doc))
              (snd (get_repo_files_recursively Sample.w "docs/missing/" []
                      (__init__ (Valid Sample.fresh_doc))))
              GithubException) as (C & D & _).
  - vm_compute. reflexivity.
  - split; assumption.
Defined.

(** X4: when the listing is not cached, the lookup returns exactly when
    the repository handle is there or can be had, the directory can be
    listed, and so can every sub-directory outside the excluded ones. *)
Theorem listing_fetch_returns_iff (w : world) (target : string)
    (excl : list string) (a : analyzer) :
  Dict.get (Dict.get_default (cache a) "files" []) (files_cache_key target excl) = None ->
  ((exists v a', get_repo_files_recursively w target excl a = (Ok v, a')) <->
   repo a || get_repo_ok w = true /\
   exists cs, get_contents w target = Some cs /\
              forallb (listable excl) cs = true).
Proof.
  intros Hk. unfold get_repo_files_recursively. rewrite Hk. split.
  - intros (v & a' & H). apply fetch_repo_files_inv in H.
    destruct H as (cs & files & a0 & a1 & R & GC & _ & W & _).
    split; [exact R|]. exists cs. split; [exact GC|].
    eapply walk_contents_ok_listable; exact W.
  - intros (R & cs & GC & L).
    destruct (fetch_repo_files_spec w target excl (time_now w) a)
      as (r & a' & E & _ & _ & S).
    destruct (S R cs GC L) as [v ->]. now exists v, a'.
Qed.

Lemma listing_fetch_returns_iff_witness :
  exists v a',
    get_repo_files_recursively Sample.w "docs/" ["docs/translations"]
      (__init__ NoFile) = (Ok v, a').
Proof.
  apply (proj2 (listing_fetch_returns_iff Sample.w "docs/" ["docs/translations"]
                  (__init__ NoFile) eq_refl)).
  split; [reflexivity|]. eexists. split; reflexivity.
Defined.

(** X5: a lookup that returned is answered from the cache when it is
    repeated at once: the same value, no remote call, no write. *)
Theorem listing_lookup_idempotent (w : world) (target : string)
    (excl : list string) (a a' : analyzer) (v : json) :
  get_repo_files_recursively w target excl a = (Ok v, a') ->
  get_repo_files_recursively w target excl a' = (Ok v, a').
Proof.
  intros H.
  assert (F : fetch_repo_files w target excl (time_now w) a = (Ok v, a') ->
              get_repo_files_recursively w target excl a' = (Ok v, a')).
  { intros E.
    destruct (fetch_repo_files_spec w target excl (time_now w) a)
      as (r & a1 & E1 & _ & [[-> _] | (fs & -> & C & _)] & _);
      rewrite E in E1; [discriminate|].
    injection E1 as -> ->.
    unfold get_repo_files_recursively. rewrite C.
    rewrite get_setdefault_same.
    rewrite get_setdefault_other by apply files_cache_key_not_cache_time.
    rewrite get_setdefault_same. simpl num_of. cbv iota.
    replace (time_now w - time_now w)%Z with 0%Z by lia.
    reflexivity. }
  pose proof H as H0.
  unfold get_repo_files_recursively in H.
  destruct (Dict.get (Dict.get_default (cache a) "files" [])
              (files_cache_key target excl)); [|now apply F].
  destruct (Dict.get (Dict.get_default (cache a) "files" []) "cache_time")
    as [ct|]; [|discriminate].
  destruct (num_of ct) as [z|e0]; [|discriminate].
  destruct (time_now w - z <? _cache_ttl)%Z; [|now apply F].
  injection H as _ <-. exact H0.
Qed.

Lemma listing_lookup_idempotent_witness :
  let run := get_repo_files_recursively Sample.w "docs/" ["docs/translations"]
               (__init__ NoFile) in
  get_repo_files_recursively Sample.w "docs/" ["docs/translations"] (snd run)
  = (Ok (JArr [JStr "docs/setup.md"; JStr "docs/usage.md";
               JStr "docs/linux/setup.md"; JStr "docs/linux/run.sh"]), snd run).
Proof.
  intros run. apply listing_lookup_idempotent with (a := __init__ NoFile).
  vm_compute. reflexivity.
Defined.

(** X6: a listing that was fetched and written is served to a later
    process from the cache file, as long as its clock is less than the TTL
    past the fetch: the same value, and no call to the remote side. *)
Theorem listing_survives_restart (w w2 : world) (target : string)
    (excl : list string) (a a' : analyzer) (v : json) :
  Dict.get (Dict.get_default (cache a) "files" []) (files_cache_key target excl) = None ->
  disk_writable w = true ->
  (time_now w2 - time_now w < _cache_ttl)%Z ->
  get_repo_files_recursively w target excl a = (Ok v, a') ->
  get_repo_files_recursively w2 target excl (__init__ (disk a'))
  = (Ok v, __init__ (disk a')) /\
  calls (__init__ (disk a')) = [].
Proof.
  intros Hk Hw Hlt H. split; [|reflexivity].
  unfold get_repo_files_recursively in H. rewrite Hk in H.
  destruct (fetch_repo_files_spec w target excl (time_now w) a)
    as (r & a1 & E1 & _ & [[-> _] | (fs & -> & C & D)] & _);
    rewrite H in E1; [discriminate|].
  injection E1 as -> ->. rewrite Hw in D. rewrite D.
  unfold get_repo_files_recursively. cbn [__init__ cache _load_cache].
  rewrite C.
  rewrite get_setdefault_same.
  rewrite get_setdefault_other by apply files_cache_key_not_cache_time.
  rewrite get_setdefault_same. simpl num_of. cbv iota.
  apply Z.ltb_lt in Hlt. now rewrite Hlt.
Qed.

Lemma listing_survives_restart_witness :
  let run := get_repo_files_recursively Sample.w "docs/" ["docs/translations"]
               (__init__ NoFile) in
  fst (get_repo_files_recursively Sample.w "docs/" ["docs/translations"]
         (__init__ (disk (snd run))))
  = Ok (JArr [JStr "docs/setup.md"; JStr "docs/usage.md";
              JStr "docs/linux/setup.md"; JStr "docs/linux/run.sh"]).
Proof.
  intros run.
  assert (R : get_repo_files_recursively Sample.w "docs/" ["docs/translations"]
                (__init__ NoFile)
              = (Ok (JArr [JStr "docs/setup.md"; JStr "docs/usage.md";
                           JStr "docs/linux/setup.md"; JStr "docs/linux/run.sh"]),
                 snd run)) by (vm_compute; reflexivity).
  destruct (listing_survives_restart Sample.w Sample.w "docs/"
              ["docs/translations"] (__init__ NoFile) (snd run) _
              eq_refl eq_refl eq_refl R) as [E _].
  now rewrite E.
Defined.

(** ** The local scan *)

Lemma drop_app_length (x s : string) (n : nat) :
  PyStr.drop (String.length x + n) (x ++ s) = PyStr.drop n s.
Proof. induction x as [|c x IH]; simpl; [reflexivity | exact IH]. Qed.

Lemma endswith_app (x s e : string) :
  PyStr.endswith s e = true -> PyStr.endswith (x ++ s) e = true.
Proof.
  unfold PyStr.endswith. rewrite string_length_app.
  intros H. apply andb_true_iff in H. destruct H as [Hl He].
  apply Nat.leb_le in Hl. apply andb_true_iff. split.
  - apply Nat.leb_le. lia.
  - replace (String.length x + String.length s - String.length e)
      with (String.length x + (String.length s - String.length e)) by lia.
    now rewrite drop_app_length.
Qed.

Lemma string_app_assoc (a b c : string) : (a ++ b) ++ c = a ++ (b ++ c).
Proof. induction a as [|x a IH]; simpl; [reflexivity | now rewrite IH]. Qed.

Lemma string_app_nil_r (a : string) : a ++ "" = a.
Proof. induction a as [|x a IH]; simpl; [reflexivity | now rewrite IH]. Qed.

Lemma path_join_suffix (a b : string) : exists x, PyStr.path_join a b = x ++ b.
Proof.
  unfold PyStr.path_join.
  destruct (PyStr.startswith b "/"); [now exists ""|].
  destruct (String.eqb a "" || PyStr.endswith a "/"); [now exists a|].
  exists (a ++ "/"). now rewrite string_app_assoc.
Qed.

Lemma in_scan_local (w : world) (root p : string) :
  In p (scan_local w root) <->
  exists d r files fn,
    local_tree w root = Some d /\ In (r, files) (os_walk root d) /\
    In fn files /\ PyStr.endswith_any fn tranlatable_file_suffix = true /\
    p = PyStr.path_join r fn.
Proof.
  unfold scan_local. destruct (local_tree w root) as [d|].
  - rewrite in_flat_map. split.
    + intros ([r files] & Hin & Hp). cbn [fst snd] in Hp.
      apply in_map_iff in Hp. destruct Hp as (fn & <- & Hf).
      apply filter_In in Hf. destruct Hf as [Hf Hs].
      now exists d, r, files, fn.
    + intros (d' & r & files & fn & [= <-] & Hin & Hf & Hs & ->).
      exists (r, files). split; [exact Hin|]. cbn [fst snd].
      apply in_map_iff. exists fn. split; [reflexivity|].
      apply filter_In. now split.
  - split; [intros [] | intros (d & r & files & fn & [=] & _)].
Qed.

(** X7: every path the update check hands to the batch lookup ends in
    ".md" or ".txt", whatever the directory it was found in; a root that is
    no directory gives no path at all. *)
Theorem scan_local_suffix (w : world) (root : string) :
  (forall p, In p (scan_local w root) ->
             PyStr.endswith p ".md" = true \/ PyStr.endswith p ".txt" = true) /\
  (local_tree w root = None -> scan_local w root = []).
Proof.
  split.
  - intros p Hp. apply in_scan_local in Hp.
    destruct Hp as (d & r & files & fn & _ & _ & _ & Hs & ->).
    destruct (path_join_suffix r fn) as [x ->].
    unfold PyStr.endswith_any, tranlatable_file_suffix in Hs.
    cbn [existsb] in Hs. rewrite orb_false_r in Hs.
    apply orb_true_iff in Hs. destruct Hs as [Hs | Hs]; [left | right];
      now apply endswith_app.
  - intros H. unfold scan_local. now rewrite H.
Qed.

Lemma scan_local_suffix_witness :
  PyStr.endswith "sources/syzkaller/linux/setup.md" ".md" = true \/
  PyStr.endswith "sources/syzkaller/linux/setup.md" ".txt" = true.
Proof.
  apply (proj1 (scan_local_suffix Sample.w "sources/syzkaller")).
  vm_compute. tauto.
Defined.

Lemma ldir_induction (P : ldir -> Prop) :
  (forall files subdirs,
     Forall (fun sub => P (snd sub)) subdirs -> P (LDir files subdirs)) ->
  forall d, P d.
Proof.
  intros H. fix IH 1. intros [files subdirs]. apply H.
  induction subdirs as [|[name sub] subdirs IHs]; constructor.
  - apply IH.
  - exact IHs.
Qed.

Lemma path_join_plain (a b : string) :
  a <> "" -> PyStr.startswith b "/" = false ->
  (exists x, PyStr.path_join a b = a ++ x) /\
  (PyStr.endswith a "/" = false -> PyStr.path_join a b = a ++ "/" ++ b).
Proof.
  intros Ha Hb. unfold PyStr.path_join. rewrite Hb.
  destruct a as [|c a]; [congruence|]. cbn [String.eqb orb].
  destruct (PyStr.endswith (String c a) "/").
  - split; [now exists b | discriminate].
  - split; [now exists ("/" ++ b) | reflexivity].
Qed.

Lemma append_nonempty (a x : string) : a <> "" -> a ++ x <> "".
Proof. destruct a; [congruence | discriminate]. Qed.

(** Every directory that [os.walk] visits has the top as a prefix of its
    path, and its file names are plain. *)
Lemma os_walk_prefix (d : ldir) :
  forall top r files,
    top <> "" -> plain_names d = true ->
    In (r, files) (os_walk top d) ->
    (exists x, r = top ++ x) /\
    forall fn, In fn files -> PyStr.startswith fn "/" = false.
Proof.
  induction d as [fs subs IH] using ldir_induction.
  intros top r files Ht Hp Hin.
  cbn [plain_names] in Hp. apply andb_true_iff in Hp. destruct Hp as [Hf Hp].
  cbn [os_walk] in Hin. destruct Hin as [Hin | Hin].
  - injection Hin as <- <-. split; [exists ""; now rewrite string_app_nil_r|].
    intros fn Hfn. rewrite forallb_forall in Hf. apply Hf in Hfn.
    now apply negb_true_iff in Hfn.
  - apply in_flat_map in Hin. destruct Hin as ([name sub] & Hs & Hin).
    cbn [fst snd] in Hin.
    rewrite forallb_forall in Hp. specialize (Hp _ Hs). cbn [fst snd] in Hp.
    apply andb_true_iff in Hp. destruct Hp as [Hn Hp].
    apply negb_true_iff in Hn.
    rewrite Forall_forall in IH. specialize (IH _ Hs). cbn [snd] in IH.
    destruct (path_join_plain top name Ht Hn) as [[x Ex] _].
    rewrite Ex in Hin.
    destruct (IH _ _ _ (append_nonempty _ x Ht) Hp Hin) as [[y ->] Hfiles].
    split; [|exact Hfiles]. exists (x ++ y). apply string_app_assoc.
Qed.

(** X8: with plain file names, every scanned path lies under the root it
    was scanned from; for the root "sources/syzkaller" the upstream path
    the batch asks about therefore begins with "docs/". *)
Theorem scan_local_under_root (w : world) (root : string) (d : ldir) :
  root <> "" ->
  PyStr.endswith root "/" = false ->
  local_tree w root = Some d ->
  plain_names d = true ->
  forall p, In p (scan_local w root) ->
    (exists t, p = root ++ "/" ++ t) /\
    (root = "sources/syzkaller" ->
     PyStr.startswith p local_prefix = true /\
     PyStr.startswith (map_file_path p true) upstream_prefix = true).
Proof.
  intros Hr He Ht Hp p Hin.
  assert (U : exists t, p = root ++ "/" ++ t).
  { apply in_scan_local in Hin.
    destruct Hin as (d' & r & files & fn & Ht' & Hw & Hfn & _ & ->).
    rewrite Ht in Ht'. injection Ht' as <-.
    destruct d as [fs subs].
    pose proof Hp as Hp0.
    cbn [plain_names] in Hp. apply andb_true_iff in Hp. destruct Hp as [Hf Hs].
    cbn [os_walk] in Hw. destruct Hw as [Hw | Hw].
    - injection Hw as <- <-.
      rewrite forallb_forall in Hf. apply Hf in Hfn. apply negb_true_iff in Hfn.
      exists fn. now apply path_join_plain.
    - apply in_flat_map in Hw. destruct Hw as ([name sub] & Hsub & Hw).
      cbn [fst snd] in Hw.
      rewrite forallb_forall in Hs. specialize (Hs _ Hsub). cbn [fst snd] in Hs.
      apply andb_true_iff in Hs. destruct Hs as [Hn Hps].
      apply negb_true_iff in Hn.
      destruct (path_join_plain root name Hr Hn) as [_ Ej].
      rewrite (Ej He) in Hw.
      destruct (os_walk_prefix sub _ _ _ (append_nonempty _ _ Hr) Hps Hw)
        as [[y ->] Hfiles].
      assert (Hne : (root ++ "/" ++ name) ++ y <> "")
        by (apply append_nonempty, append_nonempty, Hr).
      destruct (path_join_plain _ fn Hne (Hfiles fn Hfn)) as [[z ->] _].
      exists (name ++ y ++ z).
      now rewrite !string_app_assoc. }
  split; [exact U|]. intros ->. destruct U as [t ->].
  change ("sources/syzkaller" ++ "/" ++ t) with (local_prefix ++ t).
  split; [apply prefix_app|].
  unfold map_file_path. rewrite replace_at_prefix by discriminate.
  generalize (PyStr.replace t local_prefix upstream_prefix). intros rest.
  change (PyStr.startswith (upstream_prefix ++ rest) "./") with false.
  cbv iota. apply prefix_app.
Qed.

Lemma scan_local_under_root_witness :
  exists t, "sources/syzkaller/linux/setup.md" = "sources/syzkaller" ++ "/" ++ t.
Proof.
  apply (scan_local_under_root Sample.w "sources/syzkaller" Sample.local).
  - discriminate.
  - reflexivity.
  - reflexivity.
  - reflexivity.
  - vm_compute. tauto.
Defined.

(** ** Upstream to local and back *)

(** Where the first character of a replaced string comes from: the input,
    or a replacement made at the very start. *)
Lemma replace_head_cases (old new s r : string) (a : ascii) :
  old <> "" ->
  PyStr.replace s old new = String a r ->
  (exists s', s = String a s' /\ r = PyStr.replace s' old new) \/
  (exists t, s = old ++ t /\ String a r = new ++ PyStr.replace t old new).
Proof.
  intros Ho H. destruct s as [|c s]; [discriminate|].
  destruct (prefix old (String c s)) eqn:E.
  - right. apply prefix_split in E. destruct E as [t E]. exists t.
    split; [exact E|]. rewrite E in H. now rewrite replace_at_prefix in H.
  - left. rewrite (replace_no_prefix _ _ _ _ E) in H.
    injection H as -> <-. now exists s.
Qed.

Ltac head_step H :=
  apply replace_head_cases in H; [|discriminate];
  destruct H as [(?s & -> & H) | (?t & _ & H)];
  [symmetry in H | simpl in H; discriminate H].

(** Replacing the upstream prefix never creates an occurrence of the local
    prefix at a position where the input had other text. *)
Lemma no_new_local_prefix (c : ascii) (s : string) :
  prefix local_prefix
    (String c (PyStr.replace s upstream_prefix local_prefix)) = true ->
  prefix local_prefix (String c s) = true.
Proof.
  intros H. apply prefix_split in H. destruct H as [t H].
  unfold local_prefix in H. simpl in H.
  injection H as -> H.
  do 17 head_step H.
  exact (prefix_app local_prefix _).
Qed.

Lemma replace_roundtrip_rev_bounded (n : nat) :
  forall s : string,
    String.length s <= n ->
    PyStr.occurs local_prefix s = false ->
    PyStr.replace (PyStr.replace s upstream_prefix local_prefix)
      local_prefix upstream_prefix = s.
Proof.
  induction n as [|n IH]; intros [|c s] Hlen Hocc; try reflexivity.
  - simpl in Hlen. lia.
  - destruct (prefix upstream_prefix (String c s)) eqn:E.
    + apply prefix_split in E. destruct E as [t E]. rewrite E in *.
      rewrite replace_at_prefix by discriminate.
      rewrite replace_at_prefix by discriminate.
      rewrite IH; [reflexivity | | eapply occurs_app_r; eassumption].
      rewrite string_length_app in Hlen. simpl in Hlen. lia.
    + rewrite occurs_cons in Hocc. apply orb_false_iff in Hocc.
      destruct Hocc as [Hp Ho].
      rewrite (replace_no_prefix _ _ _ _ E).
      rewrite replace_no_prefix.
      * rewrite IH; [reflexivity | simpl in Hlen; lia | exact Ho].
      * destruct (prefix local_prefix
                    (String c (PyStr.replace s upstream_prefix local_prefix))) eqn:E2;
          [|reflexivity].
        apply no_new_local_prefix in E2. congruence.
Qed.

Lemma replace_dot_slash (s : string) :
  PyStr.replace ("./" ++ s) local_prefix upstream_prefix
  = "./" ++ PyStr.replace s local_prefix upstream_prefix.
Proof. cbn [append]. now rewrite !replace_no_prefix by reflexivity. Qed.

(** X9: an upstream path that begins with "docs/" and in which
    "sources/syzkaller/" does not occur is mapped to a local path that
    begins with "sources/syzkaller/", and both that path and the path the
    collection audit tests, joined to ".", are mapped back to it. *)
Theorem map_file_path_upstream_roundtrip (u : string) :
  PyStr.startswith u upstream_prefix = true ->
  PyStr.occurs local_prefix u = false ->
  PyStr.startswith (map_file_path u false) local_prefix = true /\
  map_file_path (map_file_path u false) true = u /\
  map_file_path (PyStr.path_join "." (map_file_path u false)) true = u.
Proof.
  intros Hpre Hocc.
  pose proof (replace_roundtrip_rev_bounded _ u (le_n _) Hocc) as RT.
  apply prefix_split in Hpre. destruct Hpre as [t Eu].
  assert (Em : map_file_path u false
               = local_prefix ++ PyStr.replace t upstream_prefix local_prefix).
  { unfold map_file_path. rewrite Eu. now rewrite replace_at_prefix by discriminate. }
  assert (Hs : PyStr.startswith u "./" = false) by (now rewrite Eu).
  conjs.
  - rewrite Em. apply prefix_app.
  - unfold map_file_path at 1. unfold map_file_path at 1 2. now rewrite RT, Hs.
  - assert (J : PyStr.path_join "." (map_file_path u false)
                = "./" ++ map_file_path u false).
    { rewrite Em. generalize (PyStr.replace t upstream_prefix local_prefix).
      intros rest. reflexivity. }
    rewrite J. unfold map_file_path at 1. rewrite replace_dot_slash.
    unfold map_file_path. rewrite RT.
    change (PyStr.startswith ("./" ++ u) "./") with (prefix "./" ("./" ++ u)).
    rewrite prefix_app. reflexivity.
Qed.

Lemma map_file_path_upstream_roundtrip_witness :
  map_file_path (PyStr.path_join "." (map_file_path "docs/linux/setup.md" false)) true
  = "docs/linux/setup.md".
Proof.
  apply (map_file_path_upstream_roundtrip "docs/linux/setup.md"); reflexivity.
Defined.

(** ** The commit lookup and the batch, on failure *)

(** X10: called without an instant (the default), the commit lookup
    raises an attribute error whatever the remote side answers, because
    both log lines format the instant; the cache and the cache file are
    left alone and no commit is requested. *)
Theorem commit_lookup_needs_instant (w : world) (path : string) (a : analyzer) :
  exists a',
    get_file_commit_and_date w path None a = (Raise AttributeError, a') /\
    cache a' = cache a /\ disk a' = disk a /\
    (calls a' = calls a \/ calls a' = EvGetRepo :: calls a).
Proof.
  unfold get_file_commit_and_date, bind, remote_get_commits.
  destruct (ensure_repo_spec w a)
    as (r0 & a0 & E0 & (C & D & _) & [-> | ->] & _ & Hrepo & Hnew & _);
    rewrite E0; exists a0; (conjs; trivial);
    (destruct (repo a) eqn:R;
     [left; now destruct (Hrepo eq_refl) as [_ ->] | right; now apply Hnew]).
Qed.

Lemma alive_test_raises (w : world) (ct : json) (d : Dict.t json) (k : string)
    (e : exn) :
  alive_test w ct d k = Raise e -> e = TypeError /\ num_of ct = Raise TypeError.
Proof.
  unfold alive_test. destruct (Dict.mem d k); [|discriminate].
  destruct ct; simpl; intros H; try discriminate; injection H as <-; auto.
Qed.

(** The batch loop, however it ends: the document and the cache file are
    not touched, and what it raises is the fatal exit or the type error of
    a clock that is no number. *)
Lemma derive_commits_frame (w : world) (cached_time : json) (l : list string) :
  forall b r b',
    derive_commits w cached_time l b = (r, b') ->
    cache (self b') = cache (self b) /\
    disk (self b') = disk (self b) /\
    (forall e, r = Raise e ->
       e = SystemExit 1 \/
       (e = TypeError /\ num_of cached_time = Raise TypeError)).
Proof.
  induction l as [|p l IH]; intros b r b' H.
  - injection H as <- <-. conjs; trivial. discriminate.
  - cbn [derive_commits] in H. unfold bindB in H.
    destruct (derive_commit_spec w cached_time p b) as (r1 & b1 & E1 & S1).
    rewrite E1 in H.
    destruct (alive_test w cached_time (commits b) p) as [[|]|e0] eqn:AT.
    + destruct S1 as [-> ->]. now apply IH.
    + destruct S1 as (_ & (C1 & D1 & _) & S1). cbn [record_call cache disk] in C1, D1.
      destruct (collected_date_of w (front_matter w p)).
      * destruct S1 as [-> _]. apply IH in H. destruct H as (C & D & R).
        conjs; try congruence. exact R.
      * destruct S1 as [-> _]. injection H as <- <-. conjs; trivial.
        intros e' [= <-]. now left.
    + destruct S1 as [-> ->]. injection H as <- <-. conjs; trivial.
      intros e' [= <-]. right. eapply alive_test_raises; exact AT.
Qed.

(** The batch lookup writes to no namespace but its own. *)
Lemma batch_cache_frame (w : world) (l : list string) (a a' : analyzer)
    (r : result (Dict.t json)) :
  get_files_commits_and_dates w l a = (r, a') ->
  forall k, k <> "commits" -> Dict.get (cache a') k = Dict.get (cache a) k.
Proof.
  unfold get_files_commits_and_dates. intros H k Hk.
  match type of H with
  | context [derive_commits ?w ?c ?l ?b] =>
      destruct (derive_commits w c l b) as [r0 b'] eqn:L
  end.
  apply derive_commits_frame in L. cbn [self] in L. destruct L as (C & _).
  destruct r0 as [[]|e0].
  - destruct (changed b').
    + match type of H with
      | context [_save_cache w ?x] =>
          destruct (save_cache_spec w x) as (a2 & Es & Cs & _)
      end.
      rewrite Es in H. injection H as _ <-. rewrite Cs. cbn [with_cache cache].
      rewrite get_set_other by exact Hk. now rewrite C.
    + injection H as _ <-. now rewrite C.
  - injection H as _ <-. unfold write_through.
    destruct (Dict.mem (cache a) "commits"); cbn [with_cache cache];
      [rewrite get_set_other by exact Hk|]; now rewrite C.
Qed.



(** ** Namespaces, exit status and runs without the network *)

(** The listing lookup writes to no namespace but its own. *)
Lemma listing_cache_frame (w : world) (target : string) (excl : list string)
    (a a' : analyzer) (r : result json) :
  get_repo_files_recursively w target excl a = (r, a') ->
  forall k, k <> "files" -> Dict.get (cache a') k = Dict.get (cache a) k.
Proof.
  intros H k Hk.
  assert (F : fetch_repo_files w target excl (time_now w) a = (r, a') ->
              Dict.get (cache a') k = Dict.get (cache a) k).
  { intros E.
    destruct (fetch_repo_files_spec w target excl (time_now w) a)
      as (r1 & a1 & E1 & _ & [[_ (C & _)] | (fs & _ & C & _)] & _);
      rewrite E in E1; injection E1 as _ <-; rewrite C; [reflexivity|].
    unfold setdefault_set. now rewrite !get_set_other by exact Hk. }
  unfold get_repo_files_recursively in H.
  destruct (Dict.get (Dict.get_default (cache a) "files" [])
              (files_cache_key target excl)); [|now apply F].
  destruct (Dict.get (Dict.get_default (cache a) "files" []) "cache_time")
    as [ct|]; [|now injection H as _ <-].
  destruct (num_of ct) as [z|e0]; [|now injection H as _ <-].
  destruct (time_now w - z <? _cache_ttl)%Z; [now injection H as _ <- | now apply F].
Qed.

(** X12: the two checks keep to their own namespace of the cache
    document: the collection audit leaves everything but [files] as it
    was, the update check everything but [commits], however they end. *)
Theorem checks_keep_to_their_namespace (w : world) (a : analyzer) :
  (forall proj r a',
     check_collection w proj a = (r, a') ->
     forall k, k <> "files" -> Dict.get (cache a') k = Dict.get (cache a) k) /\
  (forall root r a',
     check_update w root a = (r, a') ->
     forall k, k <> "commits" -> Dict.get (cache a') k = Dict.get (cache a) k).
Proof.
  split.
  - intros proj r a' H k Hk. unfold check_collection, bind in H.
    destruct (get_repo_files_recursively w "docs/" ["docs/translations"] a)
      as [[v|e] a1] eqn:G; injection H as _ <-;
      exact (listing_cache_frame _ _ _ _ _ _ G k Hk).
  - intros root r a' H k Hk. unfold check_update, bind in H.
    destruct (get_files_commits_and_dates w (scan_local w root) a)
      as [[v|e] a1] eqn:G; injection H as _ <-;
      exact (batch_cache_frame _ _ _ _ _ G k Hk).
Qed.

Lemma checks_keep_to_their_namespace_witness :
  Dict.get (cache (snd (check_update Sample.w_clean "sources/syzkaller"
                          (__init__ (Valid Sample.fresh_doc))))) "files"
  = Dict.get Sample.fresh_doc "files".
Proof.
  apply (proj2 (checks_keep_to_their_namespace Sample.w_clean
                  (__init__ (Valid Sample.fresh_doc)))
           "sources/syzkaller"
           (fst (check_update Sample.w_clean "sources/syzkaller"
                   (__init__ (Valid Sample.fresh_doc))))).
  - now destruct (check_update Sample.w_clean "sources/syzkaller"
                    (__init__ (Valid Sample.fresh_doc))).
  - discriminate.
Defined.

Lemma py_getitem_raises (x : json) (k : string) (e : exn) :
  py_getitem x k = Raise e -> is_exit e = false.
Proof.
  unfold py_getitem. destruct x; try (intros [= <-]; reflexivity).
  destruct (Dict.get fields k); intros [= <-]. reflexivity.
Qed.

Lemma py_index_raises (x : json) (i : nat) (e : exn) :
  py_index x i = Raise e -> is_exit e = false.
Proof.
  unfold py_index. destruct x; try (intros [= <-]; reflexivity).
  - destruct (String.get i s); intros [= <-]. reflexivity.
  - destruct (nth_error items i); intros [= <-]. reflexivity.
Qed.

Lemma is_stale_raises (info : json) (e : exn) :
  is_stale info = Raise e -> is_exit e = false.
Proof.
  unfold is_stale, rbind.
  repeat match goal with
         | |- context [match py_getitem ?x ?k with _ => _ end] =>
             let E := fresh "E" in
             destruct (py_getitem x k) eqn:E;
             [|intros [= <-]; exact (py_getitem_raises _ _ _ E)]
         | |- context [match py_index ?x ?i with _ => _ end] =>
             let E := fresh "E" in
             destruct (py_index x i) eqn:E;
             [|intros [= <-]; exact (py_index_raises _ _ _ E)]
         end.
  discriminate.
Qed.

Lemma stale_loop_raises (items : list (string * json)) :
  forall acc e, stale_loop items acc = Raise e -> is_exit e = false.
Proof.
  induction items as [|[k info] items IH]; intros acc e H; [discriminate|].
  cbn [stale_loop] in H.
  destruct (String.eqb k "cache_time"); [now apply IH in H|].
  destruct (is_stale info) as [[|]|e0] eqn:S; [now apply IH in H .. |].
  injection H as <-. exact (is_stale_raises _ _ S).
Qed.

Lemma collection_loop_raises (w : world) (proj : string) (items : list json) :
  forall acc e, collection_loop w proj items acc = Raise e -> e = AttributeError.
Proof.
  induction items as [|x items IH]; intros acc e H; [discriminate|].
  cbn [collection_loop] in H.
  destruct x; try (now injection H as <-).
  destruct (uncollected w proj s); now apply IH in H.
Qed.

Lemma listing_raises_no_exit (w : world) (target : string) (excl : list string)
    (a a' : analyzer) (e : exn) :
  get_repo_files_recursively w target excl a = (Raise e, a') -> is_exit e = false.
Proof.
  intros H.
  assert (F : fetch_repo_files w target excl (time_now w) a = (Raise e, a') ->
              is_exit e = false).
  { intros E.
    destruct (fetch_repo_files_spec w target excl (time_now w) a)
      as (r1 & a1 & E1 & _ & [[-> _] | (fs & -> & _)] & _);
      rewrite E in E1; [now injection E1 as -> | discriminate]. }
  unfold get_repo_files_recursively in H.
  destruct (Dict.get (Dict.get_default (cache a) "files" [])
              (files_cache_key target excl)); [|now apply F].
  destruct (Dict.get (Dict.get_default (cache a) "files" []) "cache_time")
    as [ct|]; [|now injection H as <-].
  destruct (num_of ct) as [z|e0] eqn:N.
  - destruct (time_now w - z <? _cache_ttl)%Z; [discriminate | now apply F].
  - injection H as <- _. destruct ct; simpl in N; try discriminate;
      now injection N as <-.
Qed.

(** X13: one run of the script ends with status 0 or 1 and with nothing
    else: 0 exactly when both checks return, 1 when either of them raises,
    be it the fatal exit or an exception that nothing catches. *)
Theorem run_status_zero_or_one (w : world) (f : disk_file) :
  (run_status w f = 0%Z \/ run_status w f = 1%Z) /\
  (run_status w f = 0%Z <-> exists a', main w (__init__ f) = (Ok tt, a')) /\
  (run_status w f = 1%Z <-> exists e a', main w (__init__ f) = (Raise e, a')).
Proof.
  assert (R : forall e a', main w (__init__ f) = (Raise e, a') -> exit_status e = 1%Z).
  { intros e a' H. unfold main, bind in H.
    destruct (check_collection w "." (__init__ f)) as [[c|e1] a1] eqn:CC.
    - destruct (check_update w "sources/syzkaller" a1) as [[u|e2] a2] eqn:CU;
        [discriminate|]. injection H as <- _.
      unfold check_update, bind in CU.
      destruct (get_files_commits_and_dates w _ a1) as [[cm|e3] a3] eqn:G.
      + injection CU as CU _. apply stale_loop_raises in CU.
        now destruct e2.
      + injection CU as <- _.
        unfold get_files_commits_and_dates in G.
        match type of G with
        | context [derive_commits ?w ?c ?l ?b] =>
            destruct (derive_commits w c l b) as [[[]|e0] b'] eqn:L
        end.
        * destruct (changed b'); [destruct (_save_cache w _)|]; discriminate.
        * injection G as <- _. apply derive_commits_frame in L.
          destruct L as (_ & _ & L). destruct (L _ eq_refl) as [-> | [-> _]];
            reflexivity.
    - injection H as <- _. unfold check_collection, bind in CC.
      destruct (get_repo_files_recursively w "docs/" ["docs/translations"]
                  (__init__ f)) as [[v|e2] a2] eqn:G.
      + injection CC as CC _. unfold rbind in CC.
        destruct (py_iter v) as [items|e3] eqn:I.
        * apply collection_loop_raises in CC. now subst.
        * injection CC as <-. destruct v; simpl in I; try discriminate;
            now injection I as <-.
      + injection CC as <- _. apply listing_raises_no_exit in G.
        now destruct e2. }
  unfold run_status.
  destruct (main w (__init__ f)) as [[[]|e] a'] eqn:M.
  - conjs; auto; split; eauto; try discriminate.
    intros (e & a2 & H). discriminate.
  - rewrite (R _ _ eq_refl). conjs; auto; split; eauto; try discriminate.
    intros (a2 & H). discriminate.
Qed.



Lemma stale_loop_readable (d : Dict.t json) :
  readable_records d ->
  forall acc, stale_loop d acc = Ok (acc ++ stale_keys d)%list.
Proof.
  unfold readable_records, stale_keys.
  induction d as [|[k info] d IH]; intros Hd acc.
  - simpl. now rewrite app_nil_r.
  - inversion Hd as [|? ? H0 Hd']; subst. cbn [fst snd] in H0.
    cbn [stale_loop filter fst snd].
    destruct (String.eqb k "cache_time") eqn:E; cbn [negb andb].
    + now apply IH.
    + destruct H0 as [-> | [b Hb]]; [discriminate|]. rewrite Hb.
      destruct b; rewrite IH by exact Hd'; [|reflexivity].
      cbn [map fst]. now rewrite <- app_assoc.
Qed.

(** A batch that returns, taken apart. *)
Lemma batch_ok_inv (w : world) (l : list string) (a a' : analyzer)
    (commits' : Dict.t json) :
  get_files_commits_and_dates w l a = (Ok commits', a') ->
  exists b',
    derive_commits w
      (Dict.get_default (Dict.get_default (cache a) "commits" []) "cache_time"
         (JNum 0)) l
      {| self := a; commits := Dict.get_default (cache a) "commits" [];
         changed := false |} = (Ok tt, b') /\
    ((changed b' = false /\ commits' = commits b' /\ a' = self b') \/
     (changed b' = true /\
      commits' = Dict.set (commits b') "cache_time" (JNum (time_now w)) /\
      cache a' = Dict.set (cache a) "commits" commits' /\
      disk a' = (if disk_writable w then Valid (cache a') else disk a) /\
      calls a' = calls (self b'))).
Proof.
  unfold get_files_commits_and_dates. intros H.
  match type of H with
  | context [derive_commits ?w ?c ?l ?b] =>
      destruct (derive_commits w c l b) as [[[]|e] b'] eqn:L; [|discriminate]
  end.
  exists b'. split; [reflexivity|].
  pose proof (derive_commits_frame _ _ _ _ _ _ L) as (C & D & _).
  cbn [self] in C, D.
  destruct (changed b').
  - right.
    match type of H with
    | context [_save_cache w ?x] =>
        destruct (save_cache_spec w x) as (a2 & Es & Cs & Ls & Ds)
    end.
    rewrite Es in H. injection H as <- <-.
    cbn [with_cache cache disk calls] in Cs, Ls, Ds.
    conjs; trivial.
    + now rewrite Cs, C.
    + rewrite Ds, Cs, D. reflexivity.
  - left. injection H as <- <-. auto.
Qed.



(** X15: when every scanned path has an entry in the commits namespace
    and the clock is less than the TTL old, the update check works from
    the cache alone: it reports from the stored records, and the analyzer
    is exactly as before: no file read, no remote call, no write. *)
Theorem check_update_served_from_cache (w : world) (root : string) (a : analyzer)
    (ct : Z) :
  let commits0 := Dict.get_default (cache a) "commits" [] in
  num_of (Dict.get_default commits0 "cache_time" (JNum 0)) = Ok ct ->
  (time_now w - ct < _cache_ttl)%Z ->
  (forall p, In p (scan_local w root) -> Dict.mem commits0 p = true) ->
  check_update w root a = (stale_loop commits0 [], a).
Proof.
  intros commits0 N Hlt Hmem.
  unfold check_update, bind, get_files_commits_and_dates. fold commits0.
  rewrite (derive_commits_all_alive w _ ct); trivial.
Qed.

Lemma check_update_served_from_cache_witness :
  check_update Sample.w "sources/syzkaller" (__init__ (Valid SampleCached.doc))
  = (Ok ["sources/syzkaller/README.txt"], __init__ (Valid SampleCached.doc)).
Proof.
  rewrite (check_update_served_from_cache Sample.w "sources/syzkaller"
             (__init__ (Valid SampleCached.doc)) 999900%Z).
  - reflexivity.
  - reflexivity.
  - vm_compute. reflexivity.
  - replace (scan_local Sample.w "sources/syzkaller")
      with ["sources/syzkaller/README.txt"; "sources/syzkaller/setup.md";
            "sources/syzkaller/linux/setup.md"] by (vm_compute; reflexivity).
    intros p [<- | [<- | [<- | []]]]; vm_compute; reflexivity.
Defined.

Lemma mem_set_mono (d : Dict.t json) (k p : string) (v : json) :
  Dict.mem d p = true -> Dict.mem (Dict.set d k v) p = true.
Proof.
  intros H. destruct (string_dec p k) as [-> | N].
  - apply mem_set_same.
  - now rewrite mem_set_other.
Qed.

(** X16: after an update check that returned, re-derived at least one
    entry and wrote the cache file, a new process that scans the same
    files less than the TTL later reports the same list from the file
    alone: it reads no front matter and makes no remote call. *)
Theorem check_update_repeats_after_restart (w w2 : world) (root : string)
    (a a' : analyzer) (out : list string) (p : string) :
  check_update w root a = (Ok out, a') ->
  In p (scan_local w root) ->
  Dict.mem (Dict.get_default (cache a) "commits" []) p = false ->
  disk_writable w = true ->
  scan_local w2 root = scan_local w root ->
  (time_now w2 - time_now w < _cache_ttl)%Z ->
  check_update w2 root (__init__ (disk a')) = (Ok out, __init__ (disk a')) /\
  calls (__init__ (disk a')) = [].
Proof.
  intros H Hp Hm Hw Hscan Hlt. split; [|reflexivity].
  unfold check_update, bind in H.
  destruct (get_files_commits_and_dates w (scan_local w root) a)
    as [[commits'|e] a1] eqn:G; [|discriminate].
  assert (a1 = a') by (now injection H). subst a1.
  assert (Hout : stale_loop commits' [] = Ok out) by (now injection H).
  destruct (batch_ok_inv _ _ _ _ _ G) as (b' & L & Hc).
  apply derive_commits_ok_spec in L. cbn [self commits] in L.
  destruct L as (_ & _ & M & _ & new & _ & R & _ & _ & Z1).
  assert (Ch : changed b' = true).
  { apply Z1. intros E.
    assert (X : In p (files_read new)).
    { apply R. split; [exact Hp|]. unfold alive_test. now rewrite Hm. }
    rewrite E in X. contradiction. }
  destruct Hc as [(Ch' & _) | (_ & Ec & Ca & Da & _)]; [congruence|].
  rewrite Hw in Da.
  assert (E2 : Dict.get_default (cache (__init__ (disk a'))) "commits" [] = commits').
  { rewrite Da. cbn [__init__ cache _load_cache]. rewrite Ca.
    unfold Dict.get_default. now rewrite get_set_same. }
  rewrite <- Hout.
  unfold check_update, bind, get_files_commits_and_dates. rewrite E2.
  rewrite (derive_commits_all_alive w2 _ (time_now w)); trivial.
  - rewrite Ec. unfold Dict.get_default. now rewrite get_set_same.
  - intros q Hq. cbn [commits]. rewrite Ec. apply mem_set_mono.
    rewrite M. apply orb_true_iff. right. apply existsb_eqb_In.
    now rewrite <- Hscan.
Qed.

Lemma check_update_repeats_after_restart_witness :
  let first := check_update Sample.w_clean "sources/syzkaller" (__init__ NoFile) in
  check_update Sample.w_clean "sources/syzkaller" (__init__ (disk (snd first)))
  = (Ok ["sources/syzkaller/setup.md"], __init__ (disk (snd first))).
Proof.
  intros first.
  assert (R : check_update Sample.w_clean "sources/syzkaller" (__init__ NoFile)
              = (Ok ["sources/syzkaller/setup.md"], snd first))
    by (vm_compute; reflexivity).
  apply (check_update_repeats_after_restart Sample.w_clean Sample.w_clean
           "sources/syzkaller" (__init__ NoFile) (snd first) _
           "sources/syzkaller/setup.md" R).
  - vm_compute. tauto.
  - reflexivity.
  - reflexivity.
  - reflexivity.
  - vm_compute. reflexivity.
Defined.

(** X17: with the listing cached as a list of paths and the clock of its
    namespace less than the TTL old, the collection audit works from the
    cache alone: it returns the cached paths that have no local file and
    no exempt suffix, in order, and the analyzer is exactly as before. *)
Theorem check_collection_served_from_cache (w : world) (proj : string)
    (a : analyzer) (paths : list string) (ct : Z) :
  let ns := Dict.get_default (cache a) "files" [] in
  Dict.get ns (files_cache_key "docs/" ["docs/translations"])
  = Some (JArr (map JStr paths)) ->
  Dict.get ns "cache_time" = Some (JNum ct) ->
  (time_now w - ct < _cache_ttl)%Z ->
  check_collection w proj a = (Ok (filter (uncollected w proj) paths), a).
Proof.
  intros ns Hk Hc Hlt.
  unfold check_collection, bind, get_repo_files_recursively. fold ns.
  rewrite Hk, Hc. simpl num_of. cbv iota.
  apply Z.ltb_lt in Hlt. rewrite Hlt.
  simpl py_iter. unfold rbind. now rewrite collection_loop_filter.
Qed.

Lemma check_collection_served_from_cache_witness :
  check_collection Sample.w "." (__init__ (Valid Sample.fresh_doc))
  = (Ok ["docs/usage.md"], __init__ (Valid Sample.fresh_doc)).
Proof.
  rewrite (check_collection_served_from_cache Sample.w "."
             (__init__ (Valid Sample.fresh_doc))
             ["docs/setup.md"; "docs/linux/run.sh"; "docs/usage.md"] 999900%Z);
    vm_compute; reflexivity.
Defined.

(** ** The document invariant *)

Lemma has_cache_time_set (c : document) (t : string) (ns : Dict.t json) :
  has_cache_time c -> Dict.mem ns "cache_time" = true ->
  has_cache_time (Dict.set c t ns).
Proof.
  intros Hc Hn t' ns' H. destruct (string_dec t' t) as [-> | N].
  - rewrite get_set_same in H. now injection H as <-.
  - rewrite get_set_other in H by exact N. now apply Hc in H.
Qed.

Lemma derive_commits_mem_mono (w : world) (cached_time : json) (l : list string) :
  forall b r b' k,
    derive_commits w cached_time l b = (r, b') ->
    Dict.mem (commits b) k = true -> Dict.mem (commits b') k = true.
Proof.
  induction l as [|p l IH]; intros b r b' k H Hk.
  - now injection H as _ <-.
  - cbn [derive_commits] in H. unfold bindB in H.
    destruct (derive_commit_spec w cached_time p b) as (r1 & b1 & E1 & S1).
    rewrite E1 in H.
    destruct (alive_test w cached_time (commits b) p) as [[|]|e0].
    + destruct S1 as [-> ->]. eapply IH; eassumption.
    + destruct S1 as (_ & _ & S1).
      destruct (collected_date_of w (front_matter w p)).
      * destruct S1 as (-> & c & cd & sl & ld & Cm).
        eapply IH; [exact H|]. rewrite Cm. now apply mem_set_mono.
      * destruct S1 as (-> & _ & Cm). injection H as _ <-.
        rewrite Cm. now apply mem_set_mono.
    + destruct S1 as [-> ->]. now injection H as _ <-.
Qed.

Lemma listing_keeps_cache_time (w : world) (target : string) (excl : list string)
    (a a' : analyzer) (r : result json) :
  has_cache_time (cache a) -> file_has_cache_time (disk a) ->
  get_repo_files_recursively w target excl a = (r, a') ->
  has_cache_time (cache a') /\ file_has_cache_time (disk a').
Proof.
  intros Hc Hd H.
  assert (F : fetch_repo_files w target excl (time_now w) a = (r, a') ->
              has_cache_time (cache a') /\ file_has_cache_time (disk a')).
  { intros E.
    destruct (fetch_repo_files_spec w target excl (time_now w) a)
      as (r1 & a1 & E1 & _ & [[_ (C & D & _)] | (fs & _ & C & D)] & _);
      rewrite E in E1; injection E1 as _ <-.
    - now rewrite C, D.
    - assert (I : has_cache_time (cache a')).
      { rewrite C. unfold setdefault_set at 1.
        apply has_cache_time_set.
        - unfold setdefault_set. apply has_cache_time_set; [exact Hc|].
          apply mem_set_same.
        - apply mem_set_mono. unfold setdefault_set, Dict.get_default.
          rewrite get_set_same. apply mem_set_same. }
      split; [exact I|]. rewrite D. now destruct (disk_writable w). }
  unfold get_repo_files_recursively in H.
  destruct (Dict.get (Dict.get_default (cache a) "files" [])
              (files_cache_key target excl)); [|now apply F].
  destruct (Dict.get (Dict.get_default (cache a) "files" []) "cache_time")
    as [ct|]; [|now injection H as _ <-].
  destruct (num_of ct) as [z|e0]; [|now injection H as _ <-].
  destruct (time_now w - z <? _cache_ttl)%Z; [now injection H as _ <- | now apply F].
Qed.

Lemma batch_keeps_cache_time (w : world) (l : list string) (a a' : analyzer)
    (r : result (Dict.t json)) :
  has_cache_time (cache a) -> file_has_cache_time (disk a) ->
  get_files_commits_and_dates w l a = (r, a') ->
  has_cache_time (cache a') /\ file_has_cache_time (disk a').
Proof.
  intros Hc Hd H. unfold get_files_commits_and_dates in H.
  match type of H with
  | context [derive_commits ?w ?c ?l ?b] =>
      destruct (derive_commits w c l b) as [r0 b'] eqn:L
  end.
  pose proof (derive_commits_frame _ _ _ _ _ _ L) as (C & D & _).
  cbn [self] in C, D.
  destruct r0 as [[]|e0].
  - destruct (changed b').
    + match type of H with
      | context [_save_cache w ?x] =>
          destruct (save_cache_spec w x) as (a2 & Es & Cs & _ & Ds)
      end.
      rewrite Es in H. injection H as _ <-.
      cbn [with_cache cache disk] in Cs, Ds.
      assert (I : has_cache_time (cache a2)).
      { rewrite Cs, C. apply has_cache_time_set; [exact Hc | apply mem_set_same]. }
      split; [exact I|]. rewrite Ds.
      destruct (disk_writable w); [now rewrite <- Cs | now rewrite D].
    + injection H as _ <-. now rewrite C, D.
  - injection H as _ <-. unfold write_through.
    destruct (Dict.mem (cache a) "commits") eqn:Al; cbn [with_cache cache disk];
      rewrite ?C, ?D; split; trivial.
    apply has_cache_time_set; [exact Hc|].
    eapply derive_commits_mem_mono; [exact L|]. cbn [commits].
    unfold Dict.mem, Dict.get_default in *.
    destruct (Dict.get (cache a) "commits") as [ns|] eqn:G; [|discriminate].
    apply Hc in G. exact G.
Qed.

(** X18: the script keeps the document invariant.  Started on a cache
    file in which every namespace has a [cache_time] (or on none, or on an
    unreadable one), a run leaves a document in memory and a cache file
    with that property, however the run ends. *)
Theorem run_keeps_cache_time (w : world) (f : disk_file) (r : result unit)
    (a' : analyzer) :
  file_has_cache_time f ->
  main w (__init__ f) = (r, a') ->
  has_cache_time (cache a') /\ file_has_cache_time (disk a').
Proof.
  intros Hf H.
  assert (H0 : has_cache_time (cache (__init__ f))).
  { cbn [__init__ cache]. destruct f as [| |doc]; cbn [_load_cache];
      [intros t ns [=] .. | exact Hf]. }
  unfold main, bind in H.
  destruct (check_collection w "." (__init__ f)) as [r1 a1] eqn:CC.
  assert (I1 : has_cache_time (cache a1) /\ file_has_cache_time (disk a1)).
  { unfold check_collection, bind in CC.
    destruct (get_repo_files_recursively w "docs/" ["docs/translations"]
                (__init__ f)) as [r2 a2] eqn:G.
    apply (listing_keeps_cache_time _ _ _ _ _ _ H0 Hf) in G.
    destruct r2; now injection CC as _ <-. }
  destruct r1 as [c|e]; [|now injection H as _ <-].
  destruct (check_update w "sources/syzkaller" a1) as [r2 a2] eqn:CU.
  assert (I2 : has_cache_time (cache a2) /\ file_has_cache_time (disk a2)).
  { unfold check_update, bind in CU.
    destruct (get_files_commits_and_dates w _ a1) as [r3 a3] eqn:G.
    apply (batch_keeps_cache_time _ _ _ _ _ (proj1 I1) (proj2 I1)) in G.
    destruct r3; now injection CU as _ <-. }
  destruct r2; now injection H as _ <-.
Qed.

Lemma run_keeps_cache_time_witness :
  file_has_cache_time (disk (snd (main Sample.w_clean (__init__ NoFile)))).
Proof.
  apply (run_keeps_cache_time Sample.w_clean NoFile
           (fst (main Sample.w_clean (__init__ NoFile)))).
  - exact I.
  - now destruct (main Sample.w_clean (__init__ NoFile)).
Defined.

(** ** The repository handle *)

Lemma same_handle_refl (a : analyzer) : same_handle a a.
Proof. split; auto. Qed.

Lemma same_handle_trans (a b c : analyzer) :
  same_handle a b -> same_handle b c -> same_handle a c.
Proof. intros [D1 R1] [D2 R2]. split; [congruence | auto]. Qed.

Lemma same_handle_record (a : analyzer) (e : event) :
  e <> EvGetRepo -> same_handle a (record_call a e).
Proof.
  intros He. split; [|auto].
  unfold handle_debt, handle_requests. cbn [record_call calls repo filter].
  destruct e; try reflexivity. congruence.
Qed.

Lemma same_handle_with_cache (a : analyzer) (c : document) :
  same_handle a (with_cache a c).
Proof. split; auto. Qed.

Lemma ensure_repo_handle (w : world) (a a' : analyzer) (r : result unit) :
  get_repo_ok w = true -> ensure_repo w a = (r, a') -> same_handle a a'.
Proof.
  intros Hok H. unfold ensure_repo in H. destruct (repo a) eqn:R.
  - injection H as _ <-. apply same_handle_refl.
  - rewrite Hok in H. injection H as _ <-. split; [|reflexivity].
    unfold handle_debt, handle_requests.
    cbn [with_repo record_call calls repo filter List.length]. rewrite R. lia.
Qed.

Lemma save_cache_handle (w : world) (a a' : analyzer) (r : result unit) :
  _save_cache w a = (r, a') -> same_handle a a'.
Proof.
  unfold _save_cache. intros H. injection H as _ <-.
  destruct (disk_writable w); split; auto.
Qed.

Lemma walk_contents_handle (fuel : nat) (excl : list string) :
  forall queue files a r a',
    walk_contents fuel excl queue files a = (r, a') -> same_handle a a'.
Proof.
  induction fuel as [|fuel IH]; intros queue files a r a' H.
  - injection H as _ <-. apply same_handle_refl.
  - cbn [walk_contents] in H. destruct queue as [|[p|p cs] rest].
    + injection H as _ <-. apply same_handle_refl.
    + eapply IH; exact H.
    + destruct (existsb (String.eqb p) excl); [eapply IH; exact H|].
      assert (S0 : same_handle a (record_call a (EvGetContents p)))
        by (apply same_handle_record; discriminate).
      destruct cs as [cs|].
      * eapply same_handle_trans; [exact S0 | eapply IH; exact H].
      * now injection H as _ <-.
Qed.

Lemma listing_handle (w : world) (target : string) (excl : list string)
    (a a' : analyzer) (r : result json) :
  get_repo_ok w = true ->
  get_repo_files_recursively w target excl a = (r, a') -> same_handle a a'.
Proof.
  intros Hok H.
  assert (F : fetch_repo_files w target excl (time_now w) a = (r, a') ->
              same_handle a a').
  { clear H. unfold fetch_repo_files, bind, remote_get_contents, ret. intros H.
    destruct (ensure_repo w a) as [r0 a0] eqn:E0.
    apply (ensure_repo_handle _ _ _ _ Hok) in E0.
    destruct r0 as [[]|e]; [|now injection H as _ <-].
    assert (S1 : same_handle a (record_call a0 (EvGetContents target))).
    { eapply same_handle_trans; [exact E0|].
      apply same_handle_record; discriminate. }
    destruct (get_contents w target) as [cs|]; [|now injection H as _ <-].
    destruct (walk_contents (S (forest_size cs)) excl cs []
                (record_call a0 (EvGetContents target))) as [r2 a2] eqn:W.
    apply walk_contents_handle in W.
    destruct r2 as [files|e]; [|injection H as _ <-;
                                 eapply same_handle_trans; eassumption].
    match type of H with
    | context [_save_cache w ?x] => destruct (_save_cache w x) as [r3 a3] eqn:Sv
    end.
    apply save_cache_handle in Sv.
    assert (a3 = a') by (destruct r3; now injection H). subst a3.
    eapply same_handle_trans; [exact S1|].
    eapply same_handle_trans; [exact W|].
    eapply same_handle_trans; [apply same_handle_with_cache | exact Sv]. }
  unfold get_repo_files_recursively in H.
  destruct (Dict.get (Dict.get_default (cache a) "files" [])
              (files_cache_key target excl)); [|now apply F].
  destruct (Dict.get (Dict.get_default (cache a) "files" []) "cache_time")
    as [ct|]; [|injection H as _ <-; apply same_handle_refl].
  destruct (num_of ct) as [z|e0]; [|injection H as _ <-; apply same_handle_refl].
  destruct (time_now w - z <? _cache_ttl)%Z;
    [injection H as _ <-; apply same_handle_refl | now apply F].
Qed.

Lemma commit_lookup_handle (w : world) (path : string) (until : option Z)
    (a a' : analyzer) (r : result (json * json)) :
  get_repo_ok w = true ->
  get_file_commit_and_date w path until a = (r, a') -> same_handle a a'.
Proof.
  intros Hok H.
  unfold get_file_commit_and_date, bind, remote_get_commits, remote_author_date,
    ret, raise in H.
  destruct (ensure_repo w a) as [r0 a0] eqn:E0.
  apply (ensure_repo_handle _ _ _ _ Hok) in E0.
  assert (S1 : forall e, e <> EvGetRepo -> same_handle a (record_call a0 e)).
  { intros e He. eapply same_handle_trans; [exact E0|].
    now apply same_handle_record. }
  assert (S2 : forall e1 e2, e1 <> EvGetRepo -> e2 <> EvGetRepo ->
                 same_handle a (record_call (record_call a0 e1) e2)).
  { intros e1 e2 H1 H2. eapply same_handle_trans; [exact (S1 e1 H1)|].
    now apply same_handle_record. }
  destruct r0 as [[]|e].
  - destruct until as [t|].
    + destruct (get_commits w path t) as [[|sha rest]|]; cbn in H.
      * injection H as _ <-. apply S1. discriminate.
      * destruct (author_date w sha); cbn in H; injection H as _ <-;
          apply S2; discriminate.
      * injection H as _ <-. apply S1. discriminate.
    + cbn in H. now injection H as _ <-.
  - destruct e; destruct until; now injection H as _ <-.
Qed.

Lemma set_commit_field_self (k field : string) (v : json) (b b' : batch)
    (r : result unit) :
  set_commit_field k field v b = (r, b') -> self b' = self b.
Proof.
  unfold set_commit_field.
  destruct (Dict.get (commits b) k) as [[| | | | |d]|]; intros H;
    now injection H as _ <-.
Qed.

Lemma refresh_commit_handle (w : world) (p : string) (b b' : batch)
    (r : result unit) :
  get_repo_ok w = true ->
  refresh_commit w p b = (r, b') -> same_handle (self b) (self b').
Proof.
  intros Hok H.
  unfold refresh_commit, bindB, set_changed, set_commit, lift_self, lift_result,
    extract_frontmatter in H.
  cbn [self commits changed] in H.
  assert (S0 : same_handle (self b) (record_call (self b) (EvFrontMatter p)))
    by (apply same_handle_record; discriminate).
  destruct (collected_date_of w (front_matter w p)) as [d|e];
    [|now injection H as _ <-].
  destruct (get_file_commit_and_date w (map_file_path p true) (Some d)
              (record_call (self b) (EvFrontMatter p))) as [r1 a1] eqn:E1.
  apply (commit_lookup_handle _ _ _ _ _ _ Hok) in E1.
  assert (S1 : same_handle (self b) a1)
    by (eapply same_handle_trans; eassumption).
  destruct r1 as [c|e]; [|now injection H as _ <-].
  match type of H with
  | context [set_commit_field p "collected" ?v ?x] =>
      destruct (set_commit_field p "collected" v x) as [r2 b2] eqn:F1
  end.
  apply set_commit_field_self in F1. cbn [self] in F1.
  destruct r2 as [[]|e]; [|injection H as _ <-; now rewrite F1].
  destruct (get_file_commit_and_date w (map_file_path p true)
              (Some (datetime_now w)) (self b2)) as [r3 a3] eqn:E3.
  apply (commit_lookup_handle _ _ _ _ _ _ Hok) in E3. rewrite F1 in E3.
  assert (S3 : same_handle (self b) a3)
    by (eapply same_handle_trans; eassumption).
  destruct r3 as [l|e]; [|now injection H as _ <-].
  apply set_commit_field_self in H. cbn [self] in H. now rewrite H.
Qed.

Lemma derive_commits_handle (w : world) (cached_time : json) (l : list string) :
  get_repo_ok w = true ->
  forall b r b',
    derive_commits w cached_time l b = (r, b') -> same_handle (self b) (self b').
Proof.
  intros Hok. induction l as [|p l IH]; intros b r b' H.
  - injection H as _ <-. apply same_handle_refl.
  - cbn [derive_commits] in H. unfold bindB in H.
    destruct (derive_commit w cached_time p b) as [r1 b1] eqn:E1.
    assert (S1 : same_handle (self b) (self b1)).
    { unfold derive_commit, bindB, cache_alive, lift_result in E1.
      destruct (Dict.mem (commits b) p).
      - destruct (num_of cached_time) as [ct|e].
        + destruct (time_now w - ct <? _cache_ttl)%Z.
          * injection E1 as _ <-. apply same_handle_refl.
          * eapply refresh_commit_handle; eassumption.
        + injection E1 as _ <-. apply same_handle_refl.
      - eapply refresh_commit_handle; eassumption. }
    destruct r1 as [[]|e]; [|now injection H as _ <-].
    eapply same_handle_trans; [exact S1 | eapply IH; exact H].
Qed.

Lemma batch_handle (w : world) (l : list string) (a a' : analyzer)
    (r : result (Dict.t json)) :
  get_repo_ok w = true ->
  get_files_commits_and_dates w l a = (r, a') -> same_handle a a'.
Proof.
  intros Hok H. unfold get_files_commits_and_dates in H.
  match type of H with
  | context [derive_commits ?w ?c ?l ?b] =>
      destruct (derive_commits w c l b) as [r0 b'] eqn:L
  end.
  apply (derive_commits_handle _ _ _ Hok) in L. cbn [self] in L.
  destruct r0 as [[]|e].
  - destruct (changed b').
    + match type of H with
      | context [_save_cache w ?x] => destruct (_save_cache w x) as [r3 a3] eqn:Sv
      end.
      apply save_cache_handle in Sv. injection H as _ <-.
      eapply same_handle_trans; [exact L|].
      eapply same_handle_trans; [apply same_handle_with_cache | exact Sv].
    + now injection H as _ <-.
  - injection H as _ <-. unfold write_through.
    destruct (Dict.mem (cache a) "commits"); [|exact L].
    eapply same_handle_trans; [exact L | apply same_handle_with_cache].
Qed.

(** X19: as long as the client hands out the repository handle, the
    script asks for it at most once: a run started without it makes at most
    one request, and no operation asks again once the handle is there. *)
Theorem handle_requested_once (w : world) :
  get_repo_ok w = true ->
  (forall f r a', main w (__init__ f) = (r, a') -> handle_requests a' <= 1) /\
  (forall a r a', main w a = (r, a') -> repo a = true ->
                  repo a' = true /\ handle_requests a' = handle_requests a).
Proof.
  intros Hok.
  assert (M : forall a r a', main w a = (r, a') -> same_handle a a').
  { intros a r a' H. unfold main, bind in H.
    destruct (check_collection w "." a) as [r1 a1] eqn:CC.
    assert (S1 : same_handle a a1).
    { unfold check_collection, bind in CC.
      destruct (get_repo_files_recursively w "docs/" ["docs/translations"] a)
        as [r2 a2] eqn:G.
      apply (listing_handle _ _ _ _ _ _ Hok) in G.
      destruct r2; now injection CC as _ <-. }
    destruct r1 as [c|e]; [|now injection H as _ <-].
    destruct (check_update w "sources/syzkaller" a1) as [r2 a2] eqn:CU.
    assert (S2 : same_handle a1 a2).
    { unfold check_update, bind in CU.
      destruct (get_files_commits_and_dates w _ a1) as [r3 a3] eqn:G.
      apply (batch_handle _ _ _ _ _ Hok) in G.
      destruct r3; now injection CU as _ <-. }
    destruct r2; injection H as _ <-; eapply same_handle_trans; eassumption. }
  split.
  - intros f r a' H. apply M in H. destruct H as [D _].
    unfold handle_debt in D. cbn in D. destruct (repo a'); lia.
  - intros a r a' H R. apply M in H. destruct H as [D R'].
    specialize (R' R). split; [exact R'|].
    unfold handle_debt in D. rewrite R, R' in D. lia.
Qed.

Lemma handle_requested_once_witness :
  handle_requests (snd (main Sample.w_clean (__init__ NoFile))) <= 1.
Proof.
  apply (proj1 (handle_requested_once Sample.w_clean eq_refl) NoFile
           (fst (main Sample.w_clean (__init__ NoFile)))).
  now destruct (main Sample.w_clean (__init__ NoFile)).
Defined.

(** X20: a run for which the listing and every scanned file are in the
    cache, both clocks less than the TTL old and the cached records
    readable, ends with status 0 and leaves the analyzer exactly as it
    was: nothing is requested from the remote side, no front matter is
    read and the cache file is not written. *)
Theorem run_served_from_cache (w : world) (a : analyzer) (paths : list string)
    (ct_files ct_commits : Z) :
  let files := Dict.get_default (cache a) "files" [] in
  let commits0 := Dict.get_default (cache a) "commits" [] in
  Dict.get files (files_cache_key "docs/" ["docs/translations"])
  = Some (JArr (map JStr paths)) ->
  Dict.get files "cache_time" = Some (JNum ct_files) ->
  (time_now w - ct_files < _cache_ttl)%Z ->
  num_of (Dict.get_default commits0 "cache_time" (JNum 0)) = Ok ct_commits ->
  (time_now w - ct_commits < _cache_ttl)%Z ->
  (forall p, In p (scan_local w "sources/syzkaller") -> Dict.mem commits0 p = true) ->
  readable_records commits0 ->
  main w a = (Ok tt, a) /\
  (forall f, a = __init__ f -> run_status w f = 0%Z).
Proof.
  intros files commits0 Hk Hc Hlt1 N Hlt2 Hmem Hr.
  assert (M : main w a = (Ok tt, a)).
  { unfold main, bind.
    assert (CC : check_collection w "." a
                 = (Ok (filter (uncollected w ".") paths), a)).
    { unfold check_collection, bind, get_repo_files_recursively. fold files.
      rewrite Hk, Hc. simpl num_of. cbv iota.
      apply Z.ltb_lt in Hlt1. rewrite Hlt1.
      simpl py_iter. unfold rbind. now rewrite collection_loop_filter. }
    rewrite CC.
    assert (CU : check_update w "sources/syzkaller" a
                 = (Ok (stale_keys commits0), a)).
    { unfold check_update, bind, get_files_commits_and_dates. fold commits0.
      rewrite (derive_commits_all_alive w _ ct_commits); trivial.
      cbn [changed commits self]. now rewrite (stale_loop_readable _ Hr). }
    now rewrite CU. }
  split; [exact M|]. intros f ->. unfold run_status. now rewrite M.
Qed.

Lemma run_served_from_cache_witness :
  let a := __init__ (Valid (("files",
                             [("cache_time", JNum 999900%Z);
                              (Sample.files_key, JArr (map JStr ["docs/setup.md"]))])
                            :: SampleCached.doc)) in
  main Sample.w a = (Ok tt, a).
Proof.
  intros a.
  assert (Hm : forall p, In p (scan_local Sample.w "sources/syzkaller") ->
                 Dict.mem (Dict.get_default (cache a) "commits" []) p = true).
  { replace (scan_local Sample.w "sources/syzkaller")
      with ["sources/syzkaller/README.txt"; "sources/syzkaller/setup.md";
            "sources/syzkaller/linux/setup.md"] by (vm_compute; reflexivity).
    intros p [<- | [<- | [<- | []]]]; vm_compute; reflexivity. }
  assert (Hr : readable_records (Dict.get_default (cache a) "commits" [])).
  { change (Dict.get_default (cache a) "commits" [])
      with [("sources/syzkaller/README.txt",
             commit_record (JStr "111aaa") JNull (JStr "222bbb") JNull);
            ("sources/syzkaller/setup.md",
             commit_record (JStr "abc123") JNull (JStr "abc123") JNull);
            ("sources/syzkaller/linux/setup.md",
             commit_record (JStr "0a1b2c") JNull (JStr "0a1b2c") JNull);
            ("cache_time", JNum 999900%Z)].
    unfold readable_records.
    repeat (apply Forall_cons;
            [first [right; eexists; apply is_stale_commit_record
                   | left; reflexivity]|]).
    apply Forall_nil. }
  exact (proj1 (run_served_from_cache Sample.w a ["docs/setup.md"]
                  999900%Z 999900%Z eq_refl eq_refl eq_refl eq_refl eq_refl
                  Hm Hr)).
Defined.
